(** * check_reason.py: grading of reasoning quality

    A shallow embedding of [src/check_reason.py] and the properties of its
    response interpreter ([evaluate_reasoning_with_model]) and of its batch
    driver ([process_json_file]).

    Python values are modelled as follows.
    - [str] is [string]: the text of the Python string (UTF-8 encoded where it
      is not ASCII).
    - [int] is [Z]; [float] is an IEEE 754 binary64 value, [spec_float] at
      precision 53 and maximal exponent 1024.
    - a value decoded from JSON is a [json]; a [dict] is an association list
      in insertion order, read and written as Python dicts are.
    - a raised exception is the left injection of a sum, and the calls to the
      grader model thread an explicit state of the outside world. *)

From Stdlib Require Import ZArith Ascii String List SpecFloat.
From stdpp Require Import base strings list gmap.

Local Open Scope Z_scope.

(** ** Python values *)

(** The exceptions that the module can raise. [GraderError] stands for
    whatever the model-invocation collaborator raises. *)
Inductive exn : Type :=
| KeyError (key : string)
| TypeError
| ZeroDivisionError
| OverflowError
| GraderError (msg : string).

(** The values that [json.loads] and [json.load] build, which are also the
    values that [json.dump] writes. *)
#[local] Unset Elimination Schemes.
Inductive json : Type :=
| JNull
| JBool (b : bool)
| JInt (n : Z)
| JFloat (x : spec_float)
| JString (s : string)
| JArray (items : list json)
| JObject (fields : list (string * json)).
#[local] Set Elimination Schemes.

(** A Python [dict] with string keys, in insertion order. *)
Abbreviation pydict := (list (string * json)).

(** [d.get(k)], [None] when the key is absent. *)
Fixpoint dict_get (k : string) (d : pydict) : option json :=
  match d with
  | [] => None
  | (k', v) :: d' => if String.eqb k' k then Some v else dict_get k d'
  end.

(** [d[k] = v]: the value of an existing key is replaced where it stands, a
    new key goes to the end. *)
Fixpoint dict_set (k : string) (v : json) (d : pydict) : pydict :=
  match d with
  | [] => [(k, v)]
  | (k', v') :: d' =>
      if String.eqb k' k then (k', v) :: d' else (k', v') :: dict_set k v d'
  end.

(** The keys of a dict, which Python keeps pairwise distinct. *)
Definition dict_keys (d : pydict) : list string := map fst d.

(** A value in which the keys of every dict are pairwise distinct. *)
Fixpoint json_wf (v : json) : Prop :=
  match v with
  | JArray items => fold_right (fun x P => json_wf x /\ P) True items
  | JObject fields =>
      NoDup (map fst fields)
      /\ fold_right (fun kv P => json_wf (snd kv) /\ P) True fields
  | _ => True
  end.

(** How many fields of [d] are named [k]. *)
Fixpoint count_key (k : string) (d : pydict) : nat :=
  match d with
  | [] => O
  | (k', _) :: d' => ((if String.eqb k' k then 1 else 0) + count_key k d')%nat
  end.

(** ** Strings *)

Definition dquote : string := String "034"%char EmptyString.

(** [str.lower] on ASCII text: the letters A to Z go to a to z, every other
    character stays. *)
Definition lower_ascii (c : ascii) : ascii :=
  let n := N_of_ascii c in
  if (65 <=? n)%N && (n <=? 90)%N then ascii_of_N (n + 32) else c.

Fixpoint ascii_lower (s : string) : string :=
  match s with
  | EmptyString => EmptyString
  | String c s' => String (lower_ascii c) (ascii_lower s')
  end.

(** Two strings that differ in the case of ASCII letters only. *)
Fixpoint case_variant (s t : string) : Prop :=
  match s, t with
  | EmptyString, EmptyString => True
  | String a s', String b t' => lower_ascii a = lower_ascii b /\ case_variant s' t'
  | _, _ => False
  end.

(** [needle in haystack] for strings. *)
Definition contains (needle haystack : string) : Prop :=
  exists pre post, haystack = pre +:+ needle +:+ post.

(** ** Floats *)

Definition prec : Z := 53.
Definition emax : Z := 1024.

(** The float of an integer operand of a true division. *)
Definition Z2SF (z : Z) : spec_float :=
  match z with
  | Z0 => S754_zero false
  | Zpos p => S754_finite false p 0
  | Zneg p => S754_finite true p 0
  end.

(** [a / b] on two [int]s: the quotient rounded to the nearest float. *)
Definition true_div (a b : Z) : exn + spec_float :=
  if b =? 0 then inl ZeroDivisionError
  else match SFdiv prec emax (Z2SF a) (Z2SF b) with
       | S754_infinity _ => inl OverflowError
       | x => inr x
       end.

(** [float(text)] for the decimal numeral [sign digits * 10^exp10]. *)
Definition float_of_decimal (neg : bool) (digits : Z) (exp10 : Z) : spec_float :=
  match digits with
  | Zpos m =>
      match exp10 with
      | Zneg e => SFdiv prec emax (S754_finite neg m 0)
                    (S754_finite false (Pos.pow 10 e) 0)
      | _ => binary_normalize prec emax
               (if neg then - (digits * 10 ^ exp10) else digits * 10 ^ exp10)
               0 false
      end
  | _ => S754_zero neg
  end.

(** The exact value of a finite float, as a fraction [(numerator, denominator)]. *)
Definition SF_exact (x : spec_float) : option (Z * Z) :=
  match x with
  | S754_zero _ => Some (0, 1)
  | S754_finite s m e =>
      let n := if s then Zneg m else Zpos m in
      Some (if 0 <=? e then (n * 2 ^ e, 1) else (n, 2 ^ (- e)))
  | _ => None
  end.

(** ** The JSON decoder

    [Json.loads] follows the scanner of Python's [json] module on its default
    settings: the grammar of RFC 8259 with the literals [NaN], [Infinity] and
    [-Infinity], strict strings (no raw control character), and objects
    decoded to dicts. The interpreter's limits (recursion depth, digits of an
    integer numeral) are not modelled. *)
Module Json.

(** What scanning a value gives: the value and the text after it, a
    decoding error, or a scan cut short by the fuel. *)
Inductive outcome : Type :=
| Parsed (v : json) (rest : string)
| Invalid
| OutOfFuel.

Definition is_ws (c : ascii) : bool :=
  Ascii.eqb c " " || Ascii.eqb c "009" || Ascii.eqb c "010" || Ascii.eqb c "013".

Fixpoint skip_ws (s : string) : string :=
  match s with
  | String c s' => if is_ws c then skip_ws s' else s
  | EmptyString => s
  end.

(** [strip_prefix p s]: the text after [p] when [s] starts with [p]. *)
Fixpoint strip_prefix (p s : string) : option string :=
  match p, s with
  | EmptyString, _ => Some s
  | String a p', String b s' => if Ascii.eqb a b then strip_prefix p' s' else None
  | String _ _, EmptyString => None
  end.

Definition digit_val (c : ascii) : option Z :=
  let n := N_of_ascii c in
  if (48 <=? n)%N && (n <=? 57)%N then Some (Z.of_N n - 48) else None.

Definition hex_val (c : ascii) : option Z :=
  let n := N_of_ascii c in
  if (48 <=? n)%N && (n <=? 57)%N then Some (Z.of_N n - 48)
  else if (65 <=? n)%N && (n <=? 70)%N then Some (Z.of_N n - 55)
  else if (97 <=? n)%N && (n <=? 102)%N then Some (Z.of_N n - 87)
  else None.

Definition hex4 (a b c d : ascii) : option Z :=
  match hex_val a, hex_val b, hex_val c, hex_val d with
  | Some x, Some y, Some z, Some w => Some (((x * 16 + y) * 16 + z) * 16 + w)
  | _, _, _, _ => None
  end.

Definition byte (n : Z) : ascii := ascii_of_N (Z.to_N n).

(** [chr(u)], UTF-8 encoded; a lone surrogate takes the three-byte form. *)
Definition chr (u : Z) : string :=
  if u <? 128 then String (byte u) EmptyString
  else if u <? 2048 then
    String (byte (192 + u / 64)) (String (byte (128 + u mod 64)) EmptyString)
  else if u <? 65536 then
    String (byte (224 + u / 4096))
      (String (byte (128 + (u / 64) mod 64))
         (String (byte (128 + u mod 64)) EmptyString))
  else
    String (byte (240 + u / 262144))
      (String (byte (128 + (u / 4096) mod 64))
         (String (byte (128 + (u / 64) mod 64))
            (String (byte (128 + u mod 64)) EmptyString))).

(** The character that a one-letter escape stands for. *)
Definition backslash (esc : ascii) : option ascii :=
  if Ascii.eqb esc "034" then Some "034"%char
  else if Ascii.eqb esc "\" then Some "\"%char
  else if Ascii.eqb esc "/" then Some "/"%char
  else if Ascii.eqb esc "b" then Some "008"%char
  else if Ascii.eqb esc "f" then Some "012"%char
  else if Ascii.eqb esc "n" then Some "010"%char
  else if Ascii.eqb esc "r" then Some "013"%char
  else if Ascii.eqb esc "t" then Some "009"%char
  else None.

Definition prepend (chunk : string) (r : option (string * string))
  : option (string * string) :=
  match r with
  | Some (content, rest) => Some (chunk +:+ content, rest)
  | None => None
  end.

(** [scanstring s]: [s] starts just after an opening quote; the result is
    the decoded content and the text after the closing quote. *)
Fixpoint scanstring (s : string) : option (string * string) :=
  match s with
  | EmptyString => None
  | String c s1 =>
      if Ascii.eqb c "034" then Some (EmptyString, s1)
      else if Ascii.eqb c "\" then
        match s1 with
        | EmptyString => None
        | String esc s2 =>
            if Ascii.eqb esc "u" then
              match s2 with
              | String h1 (String h2 (String h3 (String h4 s3))) =>
                  match hex4 h1 h2 h3 h4 with
                  | None => None
                  | Some uni =>
                      match s3 with
                      | String b (String u (String g1 (String g2 (String g3 (String g4 s4))))) =>
                          if (55296 <=? uni) && (uni <=? 56319)
                             && Ascii.eqb b "\" && Ascii.eqb u "u"
                          then
                            match hex4 g1 g2 g3 g4 with
                            | None => None
                            | Some uni2 =>
                                if (56320 <=? uni2) && (uni2 <=? 57343)
                                then prepend
                                       (chr (65536 + ((uni - 55296) * 1024 + (uni2 - 56320))))
                                       (scanstring s4)
                                else prepend (chr uni) (scanstring s3)
                            end
                          else prepend (chr uni) (scanstring s3)
                      | _ =>
                          if (55296 <=? uni) && (uni <=? 56319)
                             && match strip_prefix "\u" s3 with Some _ => true | None => false end
                          then None
                          else prepend (chr uni) (scanstring s3)
                      end
                  end
              | _ => None
              end
            else
              match backslash esc with
              | Some ch => prepend (String ch EmptyString) (scanstring s2)
              | None => None
              end
        end
      else if (N_of_ascii c <? 32)%N then None
      else prepend (String c EmptyString) (scanstring s1)
  end.

(** The digits at the head of [s], accumulated on [acc], and their count. *)
Fixpoint digits (s : string) (acc : Z) (cnt : Z) : Z * Z * string :=
  match s with
  | String c s' =>
      match digit_val c with
      | Some d => digits s' (acc * 10 + d) (cnt + 1)
      | None => (acc, cnt, s)
      end
  | EmptyString => (acc, cnt, s)
  end.

(** The integer part of a numeral: [0], or a non-zero digit and digits. *)
Definition int_part (s : string) : option (Z * string) :=
  match s with
  | String c s' =>
      match digit_val c with
      | Some 0 => Some (0, s')
      | Some d => let '(v, _, rest) := digits s' d 1 in Some (v, rest)
      | None => None
      end
  | EmptyString => None
  end.

(** The fraction: a point and at least one digit, else nothing is read. *)
Definition frac_part (s : string) (acc : Z) : option (Z * Z * string) :=
  match s with
  | String c s' =>
      if Ascii.eqb c "." then
        let '(v, cnt, rest) := digits s' acc 0 in
        if 0 <? cnt then Some (v, cnt, rest) else None
      else None
  | EmptyString => None
  end.

(** The exponent: [e] or [E], an optional sign and at least one digit. *)
Definition exp_part (s : string) : option (Z * string) :=
  match s with
  | String c s' =>
      if Ascii.eqb c "e" || Ascii.eqb c "E" then
        let '(neg, s'') :=
          match s' with
          | String sg t =>
              if Ascii.eqb sg "-" then (true, t)
              else if Ascii.eqb sg "+" then (false, t)
              else (false, s')
          | EmptyString => (false, s')
          end in
        let '(v, cnt, rest) := digits s'' 0 0 in
        if 0 <? cnt then Some (if neg then - v else v, rest) else None
      else None
  | EmptyString => None
  end.

(** A numeral at the head of [s]: an [int] when it has neither fraction nor
    exponent, a [float] otherwise. *)
Definition scan_number (s : string) : option (json * string) :=
  let '(neg, s0) :=
    match s with
    | String c s' => if Ascii.eqb c "-" then (true, s') else (false, s)
    | EmptyString => (false, s)
    end in
  match int_part s0 with
  | None => None
  | Some (i, s1) =>
      let '(m, fcnt, s2, has_frac) :=
        match frac_part s1 i with
        | Some (v, cnt, rest) => (v, cnt, rest, true)
        | None => (i, 0, s1, false)
        end in
      match exp_part s2 with
      | Some (e, s3) => Some (JFloat (float_of_decimal neg m (e - fcnt)), s3)
      | None =>
          if has_frac then Some (JFloat (float_of_decimal neg m (- fcnt)), s2)
          else Some (JInt (if neg then - i else i), s2)
      end
  end.

(** The literals and numerals, tried in the scanner's order. *)
Definition scan_atom (s : string) : outcome :=
  match strip_prefix "null" s with
  | Some rest => Parsed JNull rest
  | None =>
  match strip_prefix "true" s with
  | Some rest => Parsed (JBool true) rest
  | None =>
  match strip_prefix "false" s with
  | Some rest => Parsed (JBool false) rest
  | None =>
  match scan_number s with
  | Some (v, rest) => Parsed v rest
  | None =>
  match strip_prefix "NaN" s with
  | Some rest => Parsed (JFloat S754_nan) rest
  | None =>
  match strip_prefix "Infinity" s with
  | Some rest => Parsed (JFloat (S754_infinity false)) rest
  | None =>
  match strip_prefix "-Infinity" s with
  | Some rest => Parsed (JFloat (S754_infinity true)) rest
  | None => Invalid
  end end end end end end end.

(** [scan_once] reads one value at the head of [s]. [object_loop] starts
    just after the opening quote of a key, with the fields read so far;
    [array_loop] starts at an item, with the items read so far, last one
    first. *)
Fixpoint scan_once (fuel : nat) (s : string) : outcome :=
  match fuel with
  | O => OutOfFuel
  | S fuel' =>
      match s with
      | EmptyString => Invalid
      | String c s1 =>
          if Ascii.eqb c "034" then
            match scanstring s1 with
            | Some (content, rest) => Parsed (JString content) rest
            | None => Invalid
            end
          else if Ascii.eqb c "{" then
            match skip_ws s1 with
            | String c2 s2 =>
                if Ascii.eqb c2 "}" then Parsed (JObject []) s2
                else if Ascii.eqb c2 "034" then object_loop fuel' [] s2
                else Invalid
            | EmptyString => Invalid
            end
          else if Ascii.eqb c "[" then
            match skip_ws s1 with
            | String c2 s2 =>
                if Ascii.eqb c2 "]" then Parsed (JArray []) s2
                else array_loop fuel' [] (String c2 s2)
            | EmptyString => Invalid
            end
          else scan_atom s
      end
  end
with object_loop (fuel : nat) (d : pydict) (s : string) : outcome :=
  match fuel with
  | O => OutOfFuel
  | S fuel' =>
      match scanstring s with
      | None => Invalid
      | Some (key, s1) =>
          match skip_ws s1 with
          | String c s2 =>
              if Ascii.eqb c ":" then
                match scan_once fuel' (skip_ws s2) with
                | Parsed v s3 =>
                    match skip_ws s3 with
                    | String c3 s4 =>
                        if Ascii.eqb c3 "}" then Parsed (JObject (dict_set key v d)) s4
                        else if Ascii.eqb c3 "," then
                          match skip_ws s4 with
                          | String c5 s5 =>
                              if Ascii.eqb c5 "034"
                              then object_loop fuel' (dict_set key v d) s5
                              else Invalid
                          | EmptyString => Invalid
                          end
                        else Invalid
                    | EmptyString => Invalid
                    end
                | other => other
                end
              else Invalid
          | EmptyString => Invalid
          end
      end
  end
with array_loop (fuel : nat) (acc : list json) (s : string) : outcome :=
  match fuel with
  | O => OutOfFuel
  | S fuel' =>
      match scan_once fuel' s with
      | Parsed v s1 =>
          match skip_ws s1 with
          | String c s2 =>
              if Ascii.eqb c "]" then Parsed (JArray (rev (v :: acc))) s2
              else if Ascii.eqb c "," then array_loop fuel' (v :: acc) (skip_ws s2)
              else Invalid
          | EmptyString => Invalid
          end
      | other => other
      end
  end.

(** [json.loads(s)]: one value between optional white space and nothing
    after it; [None] when the decoder raises. The fuel is more than a text
    of this length can use. *)
Definition loads (s : string) : option json :=
  match scan_once (S (2 * String.length s)) (skip_ws s) with
  | Parsed v rest =>
      match skip_ws rest with
      | EmptyString => Some v
      | String _ _ => None
      end
  | _ => None
  end.

End Json.

(** ** Operations on decoded values *)

(** [v[k]] for a string key: only a dict takes one. *)
Definition getitem (v : json) (k : string) : exn + json :=
  match v with
  | JObject d =>
      match dict_get k d with
      | Some x => inr x
      | None => inl (KeyError k)
      end
  | _ => inl TypeError
  end.

(** [v[k] = x] for a string key; the dict is updated in place. *)
Definition setitem (v : json) (k : string) (x : json) : exn + json :=
  match v with
  | JObject d => inr (JObject (dict_set k x d))
  | _ => inl TypeError
  end.

(** [len(v)]; the module only prints the number, so only whether the call
    raises is kept. *)
Definition py_len (v : json) : exn + unit :=
  match v with
  | JArray _ | JString _ | JObject _ => inr tt
  | _ => inl TypeError
  end.

(** Whether [s] starts with a UTF-8 continuation byte. *)
Definition starts_with_continuation (s : string) : bool :=
  match s with
  | String c _ => (128 <=? N_of_ascii c)%N && (N_of_ascii c <? 192)%N
  | EmptyString => false
  end.

(** The characters of a string: a UTF-8 continuation byte belongs to the
    character before it. *)
Fixpoint code_points (s : string) : list string :=
  match s with
  | EmptyString => []
  | String c s' =>
      if starts_with_continuation s' then
        match code_points s' with
        | p :: ps => String c p :: ps
        | [] => [String c EmptyString]
        end
      else String c EmptyString :: code_points s'
  end.

(** The document as a store. The objects that [json.load] builds form a
    tree: each dict and list is held by one field or one position only. The
    dict that the loop variable [item] refers to is therefore the one held at
    one position of [data["results"]], and a write to it is a write at that
    place of the document. *)
Inductive item_ref : Type :=
| InResults (i : nat)
| Temporary (v : json).

(** The list held by [data["results"]]. *)
Definition results_of (data : json) : list json :=
  match data with
  | JObject d =>
      match dict_get "results" d with
      | Some (JArray l) => l
      | _ => []
      end
  | _ => []
  end.

(** The value that [item] refers to. *)
Definition deref (data : json) (item : item_ref) : json :=
  match item with
  | InResults i => default JNull (results_of data !! i)
  | Temporary v => v
  end.

(** [item[k] = x]: the document after the write. *)
Definition assign (data : json) (item : item_ref) (k : string) (x : json)
  : exn + json :=
  match setitem (deref data item) k x with
  | inl e => inl e
  | inr item' =>
      match item, data with
      | InResults i, JObject d =>
          inr (JObject (dict_set "results" (JArray (<[i := item']> (results_of data))) d))
      | _, _ => inr data
      end
  end.

(** [v[:10]]: a new list that holds the first ten items of a list (the items
    themselves, not copies), or the first ten characters of a string. A dict
    refuses a slice (with a [KeyError] from Python 3.12 on). *)
Definition slice10 (v : json) : exn + list item_ref :=
  match v with
  | JArray l => inr (map InResults (seq 0 (length (take 10 l))))
  | JString s => inr (map (fun c => Temporary (JString c)) (take 10 (code_points s)))
  | _ => inl TypeError
  end.

(** [sum(scores)] over a list of ints, the only numbers that the module
    collects. *)
Fixpoint py_sum (scores : list json) : exn + Z :=
  match scores with
  | [] => inr 0
  | JInt n :: rest =>
      match py_sum rest with
      | inr total => inr (n + total)
      | inl e => inl e
      end
  | _ :: _ => inl TypeError
  end.

(** ** Scoring for reasoning quality *)

Definition REASONING_SCORE_MAP : gmap string Z :=
  {[ "excellent" := 4; "good" := 3; "weak" := 2; "incorrect" := 1; "invalid" := 0 ]}.

(** [REASONING_SCORE_MAP.get(quality, 0)] *)
Definition score_of (quality : string) : Z :=
  default 0 (REASONING_SCORE_MAP !! quality).

(** The labels the grader is asked to choose from; they are the keys of the
    table with a positive score. *)
Definition graded_labels : list string := ["excellent"; "good"; "weak"; "incorrect"].

(** The text of the f-string [eval_question], with its three fields already
    formatted. *)
Definition eval_question_text (question reference_answer model_answer : string)
  : string :=
  "
You will evaluate the quality of the reasoning in the model's answer to a question.

--- Question ---
" +:+ question +:+ "

--- Correct Answer ---
" +:+ reference_answer +:+ "

--- Model's Answer (including reasoning) ---
" +:+ model_answer +:+ "

Task:
Evaluate ONLY the reasoning quality (not the final answer correctness).
Focus on:
- logical soundness
- factual correctness
- alignment with the question
- avoidance of hallucinations
- completeness and relevance

Output STRICTLY in JSON:
{
  " +:+ dquote +:+ "reasoning_quality" +:+ dquote +:+ ": "
    +:+ dquote +:+ "excellent/good/weak/incorrect" +:+ dquote +:+ ",
  " +:+ dquote +:+ "explanation" +:+ dquote +:+ ": "
    +:+ dquote +:+ "One short paragraph explaining your judgment." +:+ dquote +:+ "
}
".

(** The verdict that stands in for a response that could not be decoded. *)
Definition invalid_verdict (response : string) : pydict :=
  [("reasoning_quality", JString "invalid");
   ("explanation", JString ("Model returned non-JSON output: " +:+ response))].

Section CheckReason.

(** The state of the outside world that a call to the grader can read and
    change, and the model configuration. *)
Context {World Config : Type}.

(** [generate_answer(question, config, question_format="qa")], imported
    from [argonium_score_parallel_v9]: it returns the raw response text or
    raises. *)
Variable generate_answer : string -> Config -> World -> (exn + string) * World.

(** [json.loads], [None] when it raises. *)
Variable json_loads : string -> option json.

(** [str.lower] *)
Variable str_lower : string -> string.

(** [str(v)] for a value that is not a string. *)
Variable str_of : json -> string.

(** A computation that may raise and may call the grader. *)
Definition M (A : Type) : Type := World -> (exn + A) * World.

Definition ret {A : Type} (a : A) : M A := fun w => (inr a, w).

Definition bind {A B : Type} (c : M A) (k : A -> M B) : M B :=
  fun w =>
    match c w with
    | (inr a, w') => k a w'
    | (inl e, w') => (inl e, w')
    end.

Definition lift {A : Type} (r : exn + A) : M A := fun w => (r, w).

Notation "x <- c1 ;; c2" := (bind c1 (fun x => c2))
  (at level 100, c1 at next level, right associativity).

(** A value interpolated in an f-string. *)
Definition format_value (v : json) : string :=
  match v with
  | JString s => s
  | _ => str_of v
  end.

(** The [try] block and its handler: the dict bound to [parsed] and the
    string bound to [quality]. *)
Definition parse_response (response : string) : pydict * string :=
  match json_loads response with
  | Some (JObject parsed) =>
      match dict_get "reasoning_quality" parsed with
      | None => (parsed, str_lower "invalid")
      | Some (JString label) => (parsed, str_lower label)
      | Some _ => (invalid_verdict response, "invalid")
      end
  | _ => (invalid_verdict response, "invalid")
  end.

(** Lines 58 to 72: from the raw response to the scored verdict. *)
Definition interpret_response (response : string) : pydict :=
  let '(parsed, quality) := parse_response response in
  dict_set "score" (JInt (score_of quality)) parsed.

(** Lines 23 to 49: the evaluation request for one record; reading a
    missing field raises. *)
Definition eval_question (item : json) : exn + string :=
  match getitem item "question" with
  | inl e => inl e
  | inr question =>
      match getitem item "reference_answer" with
      | inl e => inl e
      | inr reference_answer =>
          match getitem item "model_answer" with
          | inl e => inl e
          | inr model_answer =>
              inr (eval_question_text (format_value question)
                     (format_value reference_answer) (format_value model_answer))
          end
      end
  end.

Definition evaluate_reasoning_with_model (item : json) (config : Config) : M pydict :=
  prompt <- lift (eval_question item) ;;
  response <- generate_answer prompt config ;;
  ret (interpret_response response).

(** The loop of [process_json_file], from the document and the scores
    collected so far to the document and the scores after the last item. *)
Fixpoint evaluate_items (items : list item_ref) (data : json)
    (reasoning_scores : list json) (config : Config) : M (json * list json) :=
  match items with
  | [] => ret (data, reasoning_scores)
  | item :: rest =>
      reasoning_eval <- evaluate_reasoning_with_model (deref data item) config ;;
      data' <- lift (assign data item "reasoning_evaluation" (JObject reasoning_eval)) ;;
      score <- lift (getitem (JObject reasoning_eval) "score") ;;
      evaluate_items rest data' (reasoning_scores ++ [score]) config
  end.

(** [process_json_file] from the loaded document to the document that is
    written out. Reading and writing the files and the console output are
    left out. *)
Definition process_json_file (data : json) (config : Config) : M json :=
  results <- lift (getitem data "results") ;;
  _ <- lift (py_len results) ;;
  items <- lift (slice10 results) ;;
  done <- evaluate_items items data [] config ;;
  let '(data', reasoning_scores) := done in
  total <- lift (py_sum reasoning_scores) ;;
  avg_score <- lift (true_div total (Z.of_nat (length reasoning_scores))) ;;
  lift (setitem data' "reasoning_average_score" (JFloat avg_score)).

(** [grader_calls config items w responses w']: from the world [w], the
    requests of [items] are sent to the grader one after the other, each is
    answered, [responses] are the answers and [w'] is the world after the
    last one. *)
Inductive grader_calls (config : Config)
  : list json -> World -> list string -> World -> Prop :=
| grader_calls_nil w : grader_calls config [] w [] w
| grader_calls_cons item items w prompt response w' responses w'' :
    eval_question item = inr prompt ->
    generate_answer prompt config w = (inr response, w') ->
    grader_calls config items w' responses w'' ->
    grader_calls config (item :: items) w (response :: responses) w''.

(** The grader with a counter of the calls made to it. *)
Definition counted (question : string) (config : Config) (wn : World * nat)
  : (exn + string) * (World * nat) :=
  let '(r, w') := generate_answer question config (fst wn) in
  (r, (w', S (snd wn))).

End CheckReason.

(** [calls_at_most k counting plain]: the computation [counting], which runs
    on the counted grader, does what [plain] does on the grader itself and
    adds at most [k] to the counter. *)
Definition calls_at_most {World A : Type} (k : nat)
    (counting : World * nat -> (exn + A) * (World * nat))
    (plain : World -> (exn + A) * World) : Prop :=
  forall w n, exists j,
    (j <= k)%nat
    /\ counting (w, n) = (fst (plain w), (snd (plain w), (n + j)%nat)).

(** ** Reading the output document *)

(** A record with its verdict attached. *)
Definition attach_verdict (item : json) (verdict : pydict) : json :=
  match item with
  | JObject fields => JObject (dict_set "reasoning_evaluation" (JObject verdict) fields)
  | _ => item
  end.

(** The score that a verdict carries. *)
Definition verdict_score (verdict : pydict) : option Z :=
  match dict_get "score" verdict with
  | Some (JInt n) => Some n
  | _ => None
  end.

(** The score in the verdict attached to a record. *)
Definition record_score (item : json) : option Z :=
  match item with
  | JObject fields =>
      match dict_get "reasoning_evaluation" fields with
      | Some (JObject verdict) => verdict_score verdict
      | _ => None
      end
  | _ => None
  end.

(** The processed records of a document: the first ten of its results. *)
Definition processed_records (doc : json) : list json :=
  match doc with
  | JObject d =>
      match dict_get "results" d with
      | Some (JArray l) => take 10 l
      | _ => []
      end
  | _ => []
  end.

(** The records of a document after the first ten. *)
Definition remaining_records (doc : json) : list json :=
  match doc with
  | JObject d =>
      match dict_get "results" d with
      | Some (JArray l) => drop 10 l
      | _ => []
      end
  | _ => []
  end.

(** [item'] is the dict [item] with a verdict stored under
    reasoning_evaluation. *)
Definition gains_verdict (item item' : json) : Prop :=
  exists fields verdict,
    item = JObject fields
    /\ item' = JObject (dict_set "reasoning_evaluation" (JObject verdict) fields).

(** The fields of a dict other than those named in [ks], in their order. *)
Definition other_fields (ks : list string) (d : pydict) : pydict :=
  filter (fun kv => fst kv ∉ ks) d.

Definition sum_Z (zs : list Z) : Z := fold_right Z.add 0 zs.

(** Whether the float [x] is the mean [total / count] up to the rounding of
    one division: it is exact when [count] divides [total], and within the
    relative error [2^-53] otherwise. *)
Definition is_rounded_mean (x : spec_float) (total count : Z) : bool :=
  match SF_exact x with
  | Some (p, q) =>
      (Z.abs (p * count - total * q) * 2 ^ 53 <=? total * q)
      && ((negb (total mod count =? 0)) || (p * count =? total * q))
  | None => false
  end.

(** [float(z)] for an int. *)
Definition float_of_Z (z : Z) : spec_float := binary_normalize prec emax z 0 false.

(** The arithmetic mean of a list of scores, as Python computes it:
    [sum(scores) / len(scores)]. *)
Definition mean_score (scores : list Z) : exn + spec_float :=
  true_div (sum_Z scores) (Z.of_nat (length scores)).

(** The check of [is_rounded_mean] on every total up to forty over every
    count from one to ten. *)
Definition mean_table_ok : bool :=
  forallb (fun total =>
    forallb (fun count =>
      match true_div total count with
      | inr x => is_rounded_mean x total count
      | inl _ => false
      end) (seqZ 1 10)) (seqZ 0 41).

(** Text whose characters are all ASCII. *)
Fixpoint is_ascii (s : string) : bool :=
  match s with
  | EmptyString => true
  | String c s' => (N_of_ascii c <? 128)%N && is_ascii s'
  end.

(** ** A scripted grader and sample data *)

(** A grader that answers from a script: each call takes the next response. *)
Definition scripted_answer (question : string) (config : unit) (script : list string)
  : (exn + string) * list string :=
  match script with
  | response :: script' => (inr response, script')
  | [] => (inl (GraderError "the script is over"), [])
  end.

(** A stand-in for [str] on the sample records, whose fields are strings. *)
Definition str_of_sample (v : json) : string := EmptyString.

(** The JSON text of an object with a label and an explanation. *)
Definition verdict_text (label explanation : string) : string :=
  "{" +:+ dquote +:+ "reasoning_quality" +:+ dquote +:+ ": "
      +:+ dquote +:+ label +:+ dquote +:+ ", "
      +:+ dquote +:+ "explanation" +:+ dquote +:+ ": "
      +:+ dquote +:+ explanation +:+ dquote +:+ "}".

(** The JSON text of an object with an explanation only. *)
Definition unlabelled_text (explanation : string) : string :=
  "{" +:+ dquote +:+ "explanation" +:+ dquote +:+ ": "
      +:+ dquote +:+ explanation +:+ dquote +:+ "}".

(** The JSON text of an object whose label is a number. *)
Definition numeric_label_text : string :=
  "{" +:+ dquote +:+ "reasoning_quality" +:+ dquote +:+ ": 4, "
      +:+ dquote +:+ "explanation" +:+ dquote +:+ ": "
      +:+ dquote +:+ "fine" +:+ dquote +:+ "}".

(** The JSON text of an object whose label is null. *)
Definition null_label_text : string :=
  "{" +:+ dquote +:+ "reasoning_quality" +:+ dquote +:+ ": null, "
      +:+ dquote +:+ "explanation" +:+ dquote +:+ ": "
      +:+ dquote +:+ "fine" +:+ dquote +:+ "}".

Definition sample_record (n : Z) : json :=
  JObject [("question", JString "Why is the sky blue?");
           ("reference_answer", JString "Rayleigh scattering");
           ("model_answer", JString "Short wavelengths scatter more.");
           ("id", JInt n)].

Definition sample_document (records : list json) : json :=
  JObject [("model", JString "llama70"); ("results", JArray records);
           ("accuracy", JInt 1)].

Definition five_records : list json := map sample_record [1; 2; 3; 4; 5].

Definition five_responses : list string :=
  [verdict_text "excellent" "sound"; verdict_text "Good" "mostly sound";
   verdict_text "weak" "gaps"; verdict_text "incorrect" "wrong";
   "I cannot answer in JSON."].

Definition twelve_records : list json :=
  map sample_record [1; 2; 3; 4; 5; 6; 7; 8; 9; 10; 11; 12].

Definition twelve_responses : list string :=
  five_responses ++ five_responses ++ five_responses.

(** The module run on the scripted grader, with the reference decoder and
    the lowering of ASCII text. *)
Definition sample_interpret : string -> pydict :=
  interpret_response Json.loads ascii_lower.

Definition sample_evaluate
  : json -> unit -> list string -> (exn + pydict) * list string :=
  evaluate_reasoning_with_model scripted_answer Json.loads ascii_lower str_of_sample.

Definition sample_process
  : json -> unit -> list string -> (exn + json) * list string :=
  process_json_file scripted_answer Json.loads ascii_lower str_of_sample.

Definition sample_process_counted
  : json -> unit -> list string * nat -> (exn + json) * (list string * nat) :=
  process_json_file (counted scripted_answer) Json.loads ascii_lower str_of_sample.

(** The request built from a sample record. *)
Definition sample_prompt : string :=
  eval_question_text "Why is the sky blue?" "Rayleigh scattering"
    "Short wavelengths scatter more.".

(** The verdict attached to a record, or an empty dict. *)
Definition record_verdict (item : json) : pydict :=
  match item with
  | JObject fields =>
      match dict_get "reasoning_evaluation" fields with
      | Some (JObject verdict) => verdict
      | _ => []
      end
  | _ => []
  end.

(** The document of a run that ended, or null. *)
Definition output_of {W : Type} (run : (exn + json) * W) : json :=
  match fst run with
  | inr out => out
  | inl _ => JNull
  end.

(** ** What a record and a document must hold *)

(** The fields of a record that the request reads, in the order in which the
    f-string reads them. *)
Definition required_fields : list string :=
  ["question"; "reference_answer"; "model_answer"].

(** Whether the dict [d] lacks the key [k]. *)
Definition lacks (d : pydict) (k : string) : bool :=
  match dict_get k d with
  | None => true
  | Some _ => false
  end.

(** The exception that building the request of [item] raises, if any: a value
    that is not a dict takes no string key, and a dict raises on the first
    field that it lacks. *)
Definition request_error (item : json) : option exn :=
  match item with
  | JObject d =>
      match find (lacks d) required_fields with
      | Some k => Some (KeyError k)
      | None => None
      end
  | _ => Some TypeError
  end.

(** The list under results, when the document is a dict that holds one. *)
Definition results_list (data : json) : option (list json) :=
  match data with
  | JObject d =>
      match dict_get "results" d with
      | Some (JArray l) => Some l
      | _ => None
      end
  | _ => None
  end.

(** The keys of a dict after a write under [k]: the key keeps its place when
    the dict has it and goes to the end otherwise. *)
Definition keys_with (k : string) (keys : list string) : list string :=
  if bool_decide (k ∈ keys) then keys else keys ++ [k].

(** Whether the float [x] is finite and lies between 0.0 and 4.0. *)
Definition is_between_0_and_4 (x : spec_float) : bool :=
  match SF_exact x with
  | Some (p, q) => (0 <? q) && (0 <=? p) && (p <=? 4 * q)
  | None => false
  end.

(** The check of [is_between_0_and_4] on the mean of every count of scores
    from one to ten and every total that scores from 0 to 4 can reach. *)
Definition mean_range_ok : bool :=
  forallb (fun count =>
    forallb (fun total =>
      match true_div total count with
      | inr x => is_between_0_and_4 x
      | inl _ => false
      end) (seqZ 0 (4 * count + 1))) (seqZ 1 10).

(** A record without the fields reference_answer and model_answer. *)
Definition incomplete_record : json :=
  JObject [("question", JString "Why is the sky blue?"); ("id", JInt 7)].

(** The JSON text of an object in which the grader sets a score of its own. *)
Definition scored_text : string :=
  "{" +:+ dquote +:+ "score" +:+ dquote +:+ ": 99, "
      +:+ dquote +:+ "reasoning_quality" +:+ dquote +:+ ": "
      +:+ dquote +:+ "weak" +:+ dquote +:+ "}".

(** Four records of which the third is incomplete. *)
Definition records_with_a_gap : list json :=
  [sample_record 1; sample_record 2; incomplete_record; sample_record 4].

(** Ten records followed by two entries that are not records. *)
Definition records_with_a_tail : list json :=
  map sample_record [1; 2; 3; 4; 5; 6; 7; 8; 9; 10] ++ [JNull; JInt 3].

(** ** The files *)

(** What stops [process_json_file] as a whole: an exception of a file
    operation, an exception of [json.load], or an exception of the run on the
    loaded document. *)
Inductive failure : Type :=
| FileError (msg : string)
| DecodeError
| Raised (e : exn).

(** What a run does to the outside world, in the order in which it does it. *)
Inductive event {Config : Type} : Type :=
| ReadFile (path : string)
| AskGrader (prompt : string) (config : Config)
| WriteFile (path : string) (data : json).

Section Files.

Context {World Config : Type}.

(** [open(path, "r", encoding="utf8")] and the read of the whole file that
    [json.load] makes: the text, or the exception raised. *)
Variable read_text : string -> World -> (string + string) * World.

(** [open(path, "w", encoding="utf8")] and
    [json.dump(data, f, indent=2, ensure_ascii=False)]. *)
Variable write_json : string -> json -> World -> (string + unit) * World.

Variable generate_answer : string -> Config -> World -> (exn + string) * World.
Variable json_loads : string -> option json.
Variable str_lower : string -> string.
Variable str_of : json -> string.

(** [process_json_file(input_file, output_file, config)] with its files:
    the document is loaded, [process_json_file] runs on it, and its output is
    written. The console output is left out. *)
Definition process_json_file_io (input_file output_file : string)
    (config : Config) (w : World) : (failure + unit) * World :=
  match read_text input_file w with
  | (inl msg, w1) => (inl (FileError msg), w1)
  | (inr text, w1) =>
      match json_loads text with
      | None => (inl DecodeError, w1)
      | Some data =>
          match process_json_file generate_answer json_loads str_lower str_of
                  data config w1 with
          | (inl e, w2) => (inl (Raised e), w2)
          | (inr out, w2) =>
              match write_json output_file out w2 with
              | (inl msg, w3) => (inl (FileError msg), w3)
              | (inr u, w3) => (inr u, w3)
              end
          end
      end
  end.

(** The three collaborators with a log of what they are asked to do. *)
Definition logged_read (path : string) (wl : World * list (@event Config))
  : (string + string) * (World * list (@event Config)) :=
  let '(r, w') := read_text path (fst wl) in
  (r, (w', snd wl ++ [ReadFile path])).

Definition logged_write (path : string) (data : json)
    (wl : World * list (@event Config))
  : (string + unit) * (World * list (@event Config)) :=
  let '(r, w') := write_json path data (fst wl) in
  (r, (w', snd wl ++ [WriteFile path data])).

Definition logged_ask (prompt : string) (config : Config)
    (wl : World * list (@event Config))
  : (exn + string) * (World * list (@event Config)) :=
  let '(r, w') := generate_answer prompt config (fst wl) in
  (r, (w', snd wl ++ [AskGrader prompt config])).

End Files.

(** Events that are requests to the grader under the configuration [config]. *)
Definition is_ask {Config : Type} (config : Config) (ev : @event Config) : Prop :=
  exists prompt, ev = AskGrader prompt config.

(** [asks_at_most k config logging plain]: the computation [logging], which
    runs on the logged grader, does what [plain] does on the grader itself
    and adds to the log at most [k] events, all of them requests under
    [config]. *)
Definition asks_at_most {World Config A : Type} (k : nat) (config : Config)
    (logging : World * list (@event Config)
               -> (exn + A) * (World * list (@event Config)))
    (plain : World -> (exn + A) * World) : Prop :=
  forall w log, exists evs,
    (length evs <= k)%nat
    /\ Forall (is_ask config) evs
    /\ logging (w, log) = (fst (plain w), (snd (plain w), log ++ evs)).

(** Files for the scripted grader: one input file, whose text is given, and
    writes that succeed. *)
Definition read_sample (text : string) (path : string) (script : list string)
  : (string + string) * list string :=
  if String.eqb path "results.json" then (inr text, script)
  else (inl "No such file or directory", script).

Definition write_sample (path : string) (data : json) (script : list string)
  : (string + unit) * list string :=
  (inr tt, script).

(** The text of a document with two records. *)
Definition sample_input_text : string :=
  let record :=
    "{" +:+ dquote +:+ "question" +:+ dquote +:+ ": "
        +:+ dquote +:+ "Q" +:+ dquote +:+ ", "
        +:+ dquote +:+ "reference_answer" +:+ dquote +:+ ": "
        +:+ dquote +:+ "A" +:+ dquote +:+ ", "
        +:+ dquote +:+ "model_answer" +:+ dquote +:+ ": "
        +:+ dquote +:+ "M" +:+ dquote +:+ "}" in
  "{" +:+ dquote +:+ "results" +:+ dquote +:+ ": ["
      +:+ record +:+ ", " +:+ record +:+ "]}".

(** The run on files with every collaborator logged. *)
Definition sample_file_run (script : list string)
  : (failure + unit) * (list string * list (@event unit)) :=
  process_json_file_io (logged_read (read_sample sample_input_text))
    (logged_write write_sample) (logged_ask scripted_answer)
    Json.loads ascii_lower str_of_sample
    "results.json" "out.json" tt (script, []).

(** * Properties *)

(** ** Dicts *)

Lemma dict_get_set_eq k v d : dict_get k (dict_set k v d) = Some v.
Proof.
  induction d as [|[k' v'] d IH]; simpl.
  - by rewrite String.eqb_refl.
  - destruct (String.eqb k' k) eqn:E; simpl; rewrite E; done.
Qed.

Lemma dict_get_set_ne k k' v d :
  k ≠ k' -> dict_get k' (dict_set k v d) = dict_get k' d.
Proof.
  intros Hne. induction d as [|[k0 v0] d IH]; simpl.
  - destruct (String.eqb_spec k k'); done.
  - destruct (String.eqb_spec k0 k) as [->|]; simpl.
    + destruct (String.eqb_spec k k'); done.
    + by rewrite IH.
Qed.

Lemma dict_set_set k v1 v2 d :
  dict_set k v2 (dict_set k v1 d) = dict_set k v2 d.
Proof.
  induction d as [|[k0 v0] d IH]; simpl.
  - by rewrite String.eqb_refl.
  - destruct (String.eqb k0 k) eqn:E; simpl; rewrite E; [done|]. by rewrite IH.
Qed.

Lemma dict_set_same k v d : dict_get k d = Some v -> dict_set k v d = d.
Proof.
  induction d as [|[k0 v0] d IH]; simpl; [done|].
  destruct (String.eqb k0 k); [by intros [= ->]|]. intros H. by rewrite IH.
Qed.

Lemma count_key_set_eq k v d :
  count_key k (dict_set k v d) = Nat.max 1 (count_key k d).
Proof.
  induction d as [|[k0 v0] d IH]; simpl.
  - by rewrite String.eqb_refl.
  - destruct (String.eqb k0 k) eqn:E; simpl; rewrite E; simpl; [done|].
    done.
Qed.

Lemma count_key_absent k d : k ∉ dict_keys d -> count_key k d = O.
Proof.
  induction d as [|[k0 v0] d IH]; simpl; [done|].
  intros Hn. apply not_elem_of_cons in Hn as [Hne Hn].
  destruct (String.eqb_spec k0 k); [congruence|]. by rewrite IH.
Qed.

Lemma count_key_NoDup k d : NoDup (dict_keys d) -> (count_key k d <= 1)%nat.
Proof.
  induction d as [|[k0 v0] d IH]; simpl; [lia|].
  intros Hnd. apply NoDup_cons in Hnd as [Hk0 Hnd].
  destruct (String.eqb_spec k0 k) as [->|].
  - rewrite count_key_absent; [lia|done].
  - specialize (IH Hnd). lia.
Qed.

Lemma dict_set_other_fields ks k v d :
  k ∈ ks -> other_fields ks (dict_set k v d) = other_fields ks d.
Proof.
  intros Hin. unfold other_fields.
  induction d as [|[k0 v0] d IH]; simpl.
  - rewrite filter_cons. simpl. by rewrite decide_False by (intros H; apply H, Hin).
  - destruct (String.eqb_spec k0 k) as [->|].
    + rewrite !filter_cons. simpl.
      by rewrite !decide_False by (intros H; apply H, Hin).
    + rewrite !filter_cons. simpl. rewrite IH. done.
Qed.

Lemma dict_keys_set_in k v d :
  k ∈ dict_keys d -> dict_keys (dict_set k v d) = dict_keys d.
Proof.
  induction d as [|[k0 v0] d IH]; simpl.
  - intros H. by apply elem_of_nil in H.
  - destruct (String.eqb_spec k0 k) as [->|Hne]; simpl; [done|].
    intros [?|H]%elem_of_cons; [congruence|]. by rewrite IH.
Qed.

Lemma dict_keys_set_notin k v d :
  k ∉ dict_keys d -> dict_keys (dict_set k v d) = dict_keys d ++ [k].
Proof.
  induction d as [|[k0 v0] d IH]; simpl; [done|].
  intros [Hne H]%not_elem_of_cons.
  destruct (String.eqb_spec k0 k) as [->|_]; simpl; [done|]. by rewrite IH.
Qed.

Lemma dict_set_NoDup k v d :
  NoDup (dict_keys d) -> NoDup (dict_keys (dict_set k v d)).
Proof.
  intros Hnd. destruct (decide (k ∈ dict_keys d)) as [Hin|Hnotin].
  - by rewrite dict_keys_set_in.
  - rewrite dict_keys_set_notin by done.
    apply NoDup_app. split; [done|]. split; [|apply NoDup_singleton].
    intros x Hx ->%list_elem_of_singleton. done.
Qed.

Lemma json_wf_array (l : list json) : json_wf (JArray l) <-> Forall json_wf l.
Proof.
  simpl. induction l as [|x l IH]; simpl.
  - split; [intros _; constructor|by intros _].
  - rewrite Forall_cons, IH. done.
Qed.

Lemma json_wf_object (d : pydict) :
  json_wf (JObject d)
  <-> NoDup (dict_keys d) /\ Forall (fun kv => json_wf (snd kv)) d.
Proof.
  simpl. apply and_iff_compat_l.
  induction d as [|x d IH]; simpl.
  - split; [intros _; constructor|by intros _].
  - rewrite Forall_cons, IH. done.
Qed.

Lemma dict_set_wf k v d :
  json_wf (JObject d) -> json_wf v -> json_wf (JObject (dict_set k v d)).
Proof.
  rewrite !json_wf_object. intros [Hnd Hall] Hv.
  split; [by apply dict_set_NoDup|].
  clear Hnd. induction Hall as [|[k0 v0] d Hx Hall IH]; simpl.
  - by repeat constructor.
  - destruct (String.eqb k0 k); constructor; done.
Qed.

(** ** The reference decoder *)

Section Decoder.

Import Json.

Lemma skip_ws_length s : (String.length (skip_ws s) <= String.length s)%nat.
Proof.
  induction s as [|c s IH]; simpl; [done|]. destruct (is_ws c); simpl; lia.
Qed.

Lemma strip_prefix_length p s rest :
  strip_prefix p s = Some rest ->
  String.length s = (String.length p + String.length rest)%nat.
Proof.
  revert s. induction p as [|a p IH]; intros [|b s]; simpl; try done.
  - by intros [= <-].
  - by intros [= <-].
  - destruct (Ascii.eqb a b); [|done]. intros H. by rewrite (IH _ H).
Qed.

Lemma prepend_Some chunk r content rest :
  prepend chunk r = Some (content, rest) -> exists c, r = Some (c, rest).
Proof. destruct r as [[c r']|]; simpl; [|done]. intros [= _ <-]. by exists c. Qed.

Lemma scanstring_shorter n :
  forall s, (String.length s < n)%nat ->
  forall content rest, scanstring s = Some (content, rest) ->
  (String.length rest < String.length s)%nat.
Proof.
  induction n as [|n IH]; [lia|]. intros s Hn content rest.
  destruct s as [|c s1]; [done|]. cbn [scanstring].
  repeat case_match; subst; try done;
    try (intros [= <- <-]; cbn [String.length] in *; lia);
    try (intros Hscan; apply prepend_Some in Hscan as [? Hscan];
         apply IH in Hscan; cbn [String.length] in *; lia).
Qed.

Lemma scanstring_length s content rest :
  scanstring s = Some (content, rest) ->
  (String.length rest < String.length s)%nat.
Proof. apply (scanstring_shorter (S (String.length s))). lia. Qed.

Lemma digits_length s acc cnt v cnt' rest :
  digits s acc cnt = (v, cnt', rest) ->
  (String.length rest <= String.length s)%nat.
Proof.
  revert acc cnt. induction s as [|c s IH]; intros acc cnt; simpl.
  - intros [= _ _ <-]; simpl; lia.
  - destruct (digit_val c); [|intros [= _ _ <-]; simpl; lia].
    intros H. apply IH in H. lia.
Qed.

Lemma int_part_length s i rest :
  int_part s = Some (i, rest) -> (String.length rest < String.length s)%nat.
Proof.
  destruct s as [|c s]; simpl; [done|].
  destruct (digit_val c) as [[|p|p]|]; try done.
  - intros [= _ <-]. lia.
  - destruct (digits s (Z.pos p) 1) as [[v cnt] r] eqn:E. intros [= _ <-].
    apply digits_length in E. lia.
  - destruct (digits s (Z.neg p) 1) as [[v cnt] r] eqn:E. intros [= _ <-].
    apply digits_length in E. lia.
Qed.

Lemma frac_part_length s acc v cnt rest :
  frac_part s acc = Some (v, cnt, rest) ->
  (String.length rest <= String.length s)%nat.
Proof.
  destruct s as [|c s]; simpl; [done|].
  destruct (Ascii.eqb c "."); [|done].
  destruct (digits s acc 0) as [[v' cnt'] r] eqn:E.
  destruct (0 <? cnt'); [|done]. intros [= _ _ <-].
  apply digits_length in E. lia.
Qed.

Lemma exp_part_length s e rest :
  exp_part s = Some (e, rest) -> (String.length rest <= String.length s)%nat.
Proof.
  destruct s as [|c s]; simpl; [done|].
  destruct (Ascii.eqb c "e" || Ascii.eqb c "E"); [|done].
  destruct (match s with
            | String sg t =>
                if Ascii.eqb sg "-" then (true, t)
                else if Ascii.eqb sg "+" then (false, t) else (false, s)
            | EmptyString => (false, s)
            end) as [neg s''] eqn:Es.
  assert (String.length s'' <= String.length s)%nat.
  { destruct s as [|sg t]; [injection Es as _ <-; simpl; lia|].
    destruct (Ascii.eqb sg "-"); [injection Es as _ <-; simpl; lia|].
    destruct (Ascii.eqb sg "+"); injection Es as _ <-; simpl; lia. }
  destruct (digits s'' 0 0) as [[v cnt] r] eqn:E.
  destruct (0 <? cnt); [|done]. intros [= _ <-].
  apply digits_length in E. lia.
Qed.

Lemma scan_number_length s v rest :
  scan_number s = Some (v, rest) -> (String.length rest < String.length s)%nat.
Proof.
  unfold scan_number.
  destruct (match s with
            | String c s' => if Ascii.eqb c "-" then (true, s') else (false, s)
            | EmptyString => (false, s)
            end) as [neg s0] eqn:Es.
  assert (String.length s0 <= String.length s)%nat.
  { destruct s as [|c s']; [injection Es as _ <-; simpl; lia|].
    destruct (Ascii.eqb c "-"); injection Es as _ <-; simpl; lia. }
  destruct (int_part s0) as [[i s1]|] eqn:Ei; [|done].
  apply int_part_length in Ei.
  destruct (frac_part s1 i) as [[[m fcnt] s2]|] eqn:Ef.
  - apply frac_part_length in Ef.
    destruct (exp_part s2) as [[e s3]|] eqn:Ee.
    + apply exp_part_length in Ee. intros [= _ <-]. lia.
    + intros [= _ <-]. lia.
  - destruct (exp_part s1) as [[e s3]|] eqn:Ee.
    + apply exp_part_length in Ee. intros [= _ <-]. lia.
    + intros [= _ <-]. lia.
Qed.

Lemma scan_number_atom s v rest :
  scan_number s = Some (v, rest) -> (exists n, v = JInt n) \/ (exists x, v = JFloat x).
Proof.
  unfold scan_number. repeat case_match; try done; intros [= <- _]; eauto.
Qed.

Lemma scan_atom_length s v rest :
  scan_atom s = Parsed v rest -> (String.length rest < String.length s)%nat.
Proof.
  unfold scan_atom.
  repeat match goal with
         | |- context [strip_prefix ?p s] =>
             let E := fresh "E" in
             destruct (strip_prefix p s) eqn:E;
             [apply strip_prefix_length in E; simpl in E; intros [= _ <-]; lia|]
         | |- context [scan_number s] =>
             let E := fresh "E" in
             destruct (scan_number s) as [[? ?]|] eqn:E;
             [apply scan_number_length in E; intros [= _ <-]; lia|]
         end.
  done.
Qed.

Lemma scan_atom_wf s v rest : scan_atom s = Parsed v rest -> json_wf v.
Proof.
  unfold scan_atom.
  repeat match goal with
         | |- context [strip_prefix ?p s] =>
             destruct (strip_prefix p s); [by intros [= <- _]|]
         | |- context [scan_number s] =>
             let E := fresh "E" in
             destruct (scan_number s) as [[? ?]|] eqn:E;
             [apply scan_number_atom in E as [[? ->]|[? ->]]; by intros [= <- _]|]
         end.
  done.
Qed.

(** Each scan that gives a value has read at least one character. *)
Lemma scan_progress n :
  (forall s v rest, scan_once n s = Parsed v rest ->
     (String.length rest < String.length s)%nat)
  /\ (forall d s v rest, object_loop n d s = Parsed v rest ->
        (String.length rest < String.length s)%nat)
  /\ (forall acc s v rest, array_loop n acc s = Parsed v rest ->
        (String.length rest < String.length s)%nat).
Proof.
  induction n as [|n (IHs & IHo & IHa)]; [by repeat split|].
  repeat split.
  - intros s v rest. cbn [scan_once]. destruct s as [|c s1]; [done|].
    destruct (Ascii.eqb c "034").
    { destruct (scanstring s1) as [[content r]|] eqn:E; [|done].
      intros [= _ <-]. apply scanstring_length in E. simpl. lia. }
    destruct (Ascii.eqb c "{").
    { pose proof (skip_ws_length s1).
      destruct (skip_ws s1) as [|c2 s2]; [done|].
      destruct (Ascii.eqb c2 "}"); [intros [= _ <-]; simpl in *; lia|].
      destruct (Ascii.eqb c2 "034"); [|done].
      intros Hl. apply IHo in Hl. simpl in *. lia. }
    destruct (Ascii.eqb c "[").
    { pose proof (skip_ws_length s1).
      destruct (skip_ws s1) as [|c2 s2]; [done|].
      destruct (Ascii.eqb c2 "]"); [intros [= _ <-]; simpl in *; lia|].
      intros Hl. apply IHa in Hl. simpl in *. lia. }
    apply scan_atom_length.
  - intros d s v rest. cbn [object_loop].
    destruct (scanstring s) as [[key s1]|] eqn:Ek; [|done].
    apply scanstring_length in Ek.
    pose proof (skip_ws_length s1).
    destruct (skip_ws s1) as [|c s2]; [done|].
    destruct (Ascii.eqb c ":"); [|done].
    pose proof (skip_ws_length s2).
    destruct (scan_once n (skip_ws s2)) as [v' s3| |] eqn:Ev; try done.
    apply IHs in Ev.
    pose proof (skip_ws_length s3).
    destruct (skip_ws s3) as [|c3 s4]; [done|].
    destruct (Ascii.eqb c3 "}"); [intros [= _ <-]; simpl in *; lia|].
    destruct (Ascii.eqb c3 ","); [|done].
    pose proof (skip_ws_length s4).
    destruct (skip_ws s4) as [|c5 s5]; [done|].
    destruct (Ascii.eqb c5 "034"); [|done].
    intros Hl. apply IHo in Hl. simpl in *. lia.
  - intros acc s v rest. cbn [array_loop].
    destruct (scan_once n s) as [v' s1| |] eqn:Ev; try done.
    apply IHs in Ev.
    pose proof (skip_ws_length s1).
    destruct (skip_ws s1) as [|c s2]; [done|].
    destruct (Ascii.eqb c "]"); [intros [= _ <-]; simpl in *; lia|].
    destruct (Ascii.eqb c ","); [|done].
    pose proof (skip_ws_length s2).
    intros Hl. apply IHa in Hl. simpl in *. lia.
Qed.

(** The fuel of [loads] is never used up: a scan that stops without a value
    has met a decoding error. *)
Lemma scan_fuel n :
  (forall s, (2 * String.length s < n)%nat -> scan_once n s <> OutOfFuel)
  /\ (forall d s, (2 * String.length s + 1 < n)%nat ->
        object_loop n d s <> OutOfFuel)
  /\ (forall acc s, (2 * String.length s + 1 < n)%nat ->
        array_loop n acc s <> OutOfFuel).
Proof.
  induction n as [|n (IHs & IHo & IHa)]; [repeat split; intros; lia|].
  destruct (scan_progress n) as (Ps & Po & Pa).
  repeat split.
  - intros s Hn. cbn [scan_once]. destruct s as [|c s1]; [done|].
    simpl in Hn.
    destruct (Ascii.eqb c "034").
    { by destruct (scanstring s1) as [[content r]|]. }
    destruct (Ascii.eqb c "{").
    { pose proof (skip_ws_length s1).
      destruct (skip_ws s1) as [|c2 s2]; [done|].
      destruct (Ascii.eqb c2 "}"); [done|].
      destruct (Ascii.eqb c2 "034"); [|done].
      apply IHo. simpl in *. lia. }
    destruct (Ascii.eqb c "[").
    { pose proof (skip_ws_length s1).
      destruct (skip_ws s1) as [|c2 s2]; [done|].
      destruct (Ascii.eqb c2 "]"); [done|].
      apply IHa. simpl in *. lia. }
    unfold scan_atom. repeat case_match; done.
  - intros d s Hn. cbn [object_loop].
    destruct (scanstring s) as [[key s1]|] eqn:Ek; [|done].
    apply scanstring_length in Ek.
    pose proof (skip_ws_length s1).
    destruct (skip_ws s1) as [|c s2]; [done|].
    destruct (Ascii.eqb c ":"); [|done].
    pose proof (skip_ws_length s2).
    destruct (scan_once n (skip_ws s2)) as [v' s3| |] eqn:Ev; [|done|].
    + apply Ps in Ev.
      pose proof (skip_ws_length s3).
      destruct (skip_ws s3) as [|c3 s4]; [done|].
      destruct (Ascii.eqb c3 "}"); [done|].
      destruct (Ascii.eqb c3 ","); [|done].
      pose proof (skip_ws_length s4).
      destruct (skip_ws s4) as [|c5 s5]; [done|].
      destruct (Ascii.eqb c5 "034"); [|done].
      apply IHo. simpl in *. lia.
    + exfalso. revert Ev. apply IHs. simpl in *. lia.
  - intros acc s Hn. cbn [array_loop].
    destruct (scan_once n s) as [v' s1| |] eqn:Ev; [|done|].
    + apply Ps in Ev.
      pose proof (skip_ws_length s1).
      destruct (skip_ws s1) as [|c s2]; [done|].
      destruct (Ascii.eqb c "]"); [done|].
      destruct (Ascii.eqb c ","); [|done].
      pose proof (skip_ws_length s2).
      apply IHa. simpl in *. lia.
    + exfalso. revert Ev. apply IHs. lia.
Qed.

(** The dicts that the decoder builds have distinct keys. *)
Lemma scan_wf n :
  (forall s v rest, scan_once n s = Parsed v rest -> json_wf v)
  /\ (forall d s v rest, json_wf (JObject d) ->
        object_loop n d s = Parsed v rest -> json_wf v)
  /\ (forall acc s v rest, Forall json_wf acc ->
        array_loop n acc s = Parsed v rest -> json_wf v).
Proof.
  induction n as [|n (IHs & IHo & IHa)]; [by repeat split|].
  repeat split.
  - intros s v rest. cbn [scan_once]. destruct s as [|c s1]; [done|].
    destruct (Ascii.eqb c "034").
    { destruct (scanstring s1) as [[content r]|]; [|done]. by intros [= <- _]. }
    destruct (Ascii.eqb c "{").
    { destruct (skip_ws s1) as [|c2 s2]; [done|].
      destruct (Ascii.eqb c2 "}").
      { intros [= <- _]. apply json_wf_object. split; constructor. }
      destruct (Ascii.eqb c2 "034"); [|done].
      apply IHo. apply json_wf_object. split; constructor. }
    destruct (Ascii.eqb c "[").
    { destruct (skip_ws s1) as [|c2 s2]; [done|].
      destruct (Ascii.eqb c2 "]"); [by intros [= <- _]|].
      apply IHa. constructor. }
    apply scan_atom_wf.
  - intros d s v rest Hd. cbn [object_loop].
    destruct (scanstring s) as [[key s1]|]; [|done].
    destruct (skip_ws s1) as [|c s2]; [done|].
    destruct (Ascii.eqb c ":"); [|done].
    destruct (scan_once n (skip_ws s2)) as [v' s3| |] eqn:Ev; try done.
    apply IHs in Ev.
    destruct (skip_ws s3) as [|c3 s4]; [done|].
    destruct (Ascii.eqb c3 "}"); [intros [= <- _]; by apply dict_set_wf|].
    destruct (Ascii.eqb c3 ","); [|done].
    destruct (skip_ws s4) as [|c5 s5]; [done|].
    destruct (Ascii.eqb c5 "034"); [|done].
    apply IHo. by apply dict_set_wf.
  - intros acc s v rest Hacc. cbn [array_loop].
    destruct (scan_once n s) as [v' s1| |] eqn:Ev; try done.
    apply IHs in Ev.
    destruct (skip_ws s1) as [|c s2]; [done|].
    destruct (Ascii.eqb c "]").
    { intros [= <- _]. apply json_wf_array, Forall_app.
      split; [by apply Forall_rev|by repeat constructor]. }
    destruct (Ascii.eqb c ","); [|done].
    apply IHa. by constructor.
Qed.

Lemma loads_fuel s :
  scan_once (S (2 * String.length s)) (skip_ws s) <> OutOfFuel.
Proof.
  apply scan_fuel. pose proof (skip_ws_length s). lia.
Qed.

Lemma loads_wf s v : loads s = Some v -> json_wf v.
Proof.
  unfold loads.
  destruct (scan_once _ _) as [v' rest| |] eqn:E; try done.
  destruct (skip_ws rest); [|done]. intros [= <-].
  by apply (proj1 (scan_wf _)) in E.
Qed.

Lemma loads_object_keys s d :
  loads s = Some (JObject d) -> NoDup (dict_keys d).
Proof. intros H. by apply loads_wf, json_wf_object in H as [? _]. Qed.

(** The decoder on some texts, as [json.loads] answers on them. *)
Example loads_values :
  loads " [1, -0, 2.5, 1e2, true, null, [], {}] "
  = Some (JArray [JInt 1; JInt 0;
                  JFloat (S754_finite false 5629499534213120 (-51));
                  JFloat (S754_finite false 7036874417766400 (-46));
                  JBool true; JNull; JArray []; JObject []]).
Proof. vm_compute. reflexivity. Qed.

Example loads_repeated_key :
  loads ("{" +:+ dquote +:+ "a" +:+ dquote +:+ ": 1, "
             +:+ dquote +:+ "b" +:+ dquote +:+ ": 2, "
             +:+ dquote +:+ "a" +:+ dquote +:+ ": 3}")
  = Some (JObject [("a", JInt 3); ("b", JInt 2)]).
Proof. vm_compute. reflexivity. Qed.

Example loads_escapes :
  loads (dquote +:+ "a\u0041\n\u00e9" +:+ dquote)
  = Some (JString ("aA" +:+ String "010" (String "195" (String "169" EmptyString)))).
Proof. vm_compute. reflexivity. Qed.

Example loads_rejects :
  loads "" = None /\ loads "[1,]" = None /\ loads "01" = None
  /\ loads "1." = None /\ loads "{} x" = None /\ loads "nul" = None
  /\ loads ("{" +:+ dquote +:+ "a" +:+ dquote +:+ " 1}") = None
  /\ loads "[[[[" = None.
Proof. vm_compute. repeat split. Qed.

End Decoder.

(** ** The score table *)

Lemma score_table_lookup (quality : string) :
  REASONING_SCORE_MAP !! quality =
    if String.eqb quality "excellent" then Some 4
    else if String.eqb quality "good" then Some 3
    else if String.eqb quality "weak" then Some 2
    else if String.eqb quality "incorrect" then Some 1
    else if String.eqb quality "invalid" then Some 0
    else None.
Proof.
  unfold REASONING_SCORE_MAP.
  destruct (String.eqb_spec quality "excellent") as [->|H1]; [done|].
  rewrite lookup_insert_ne by done.
  destruct (String.eqb_spec quality "good") as [->|H2]; [done|].
  rewrite lookup_insert_ne by done.
  destruct (String.eqb_spec quality "weak") as [->|H3]; [done|].
  rewrite lookup_insert_ne by done.
  destruct (String.eqb_spec quality "incorrect") as [->|H4]; [done|].
  rewrite lookup_insert_ne by done.
  destruct (String.eqb_spec quality "invalid") as [->|H5]; [done|].
  by rewrite lookup_singleton_ne.
Qed.

Lemma score_of_range (quality : string) : 0 <= score_of quality <= 4.
Proof.
  unfold score_of. rewrite score_table_lookup.
  repeat match goal with |- context [String.eqb ?a ?b] => destruct (String.eqb a b) end;
    simpl; lia.
Qed.

Lemma score_of_unknown (quality : string) :
  REASONING_SCORE_MAP !! quality = None -> score_of quality = 0.
Proof. unfold score_of. by intros ->. Qed.

Lemma score_of_ungraded (quality : string) :
  quality ∉ graded_labels -> score_of quality = 0.
Proof.
  intros Hnot. unfold score_of. rewrite score_table_lookup.
  destruct (String.eqb_spec quality "excellent") as [->|_];
    [exfalso; apply Hnot; unfold graded_labels; set_solver|].
  destruct (String.eqb_spec quality "good") as [->|_];
    [exfalso; apply Hnot; unfold graded_labels; set_solver|].
  destruct (String.eqb_spec quality "weak") as [->|_];
    [exfalso; apply Hnot; unfold graded_labels; set_solver|].
  destruct (String.eqb_spec quality "incorrect") as [->|_];
    [exfalso; apply Hnot; unfold graded_labels; set_solver|].
  by destruct (String.eqb quality "invalid").
Qed.

(** C2: the table maps excellent, good, weak, incorrect and invalid to 4, 3,
    2, 1 and 0 and holds no other key, and the lookup with its default maps
    every other string, the empty string included, to 0. *)
Theorem score_table_exact :
  (forall quality : string,
     REASONING_SCORE_MAP !! quality =
       if String.eqb quality "excellent" then Some 4
       else if String.eqb quality "good" then Some 3
       else if String.eqb quality "weak" then Some 2
       else if String.eqb quality "incorrect" then Some 1
       else if String.eqb quality "invalid" then Some 0
       else None)
  /\ (forall quality : string,
        score_of quality =
          if String.eqb quality "excellent" then 4
          else if String.eqb quality "good" then 3
          else if String.eqb quality "weak" then 2
          else if String.eqb quality "incorrect" then 1
          else 0)
  /\ score_of "" = 0.
Proof.
  split; [exact score_table_lookup|]. split; [|done].
  intros quality. unfold score_of. rewrite score_table_lookup.
  repeat match goal with |- context [String.eqb ?a ?b] => destruct (String.eqb a b) end;
    done.
Qed.

(** ** Strings *)

Lemma append_cons (c : ascii) (s t : string) :
  String c s +:+ t = String c (s +:+ t).
Proof. reflexivity. Qed.

Lemma append_length (s t : string) :
  String.length (s +:+ t) = (String.length s + String.length t)%nat.
Proof.
  induction s as [|c s IH]; [done|]. rewrite append_cons. simpl. by rewrite IH.
Qed.

Lemma contains_length (needle haystack : string) :
  contains needle haystack -> (String.length needle <= String.length haystack)%nat.
Proof.
  intros (pre & post & ->). rewrite !append_length. lia.
Qed.

Lemma append_empty_r (s : string) : s +:+ EmptyString = s.
Proof. induction s as [|c s IH]; [done|]. by rewrite append_cons, IH. Qed.

Lemma contains_suffix (pre s : string) : contains s (pre +:+ s).
Proof. exists pre, EmptyString. by rewrite append_empty_r. Qed.

Lemma lower_ascii_is_ascii (c : ascii) :
  (N_of_ascii (lower_ascii c) <? 128)%N = (N_of_ascii c <? 128)%N.
Proof. destruct c as [[] [] [] [] [] [] [] []]; reflexivity. Qed.

Lemma case_variant_lower (s t : string) :
  case_variant s t -> ascii_lower s = ascii_lower t.
Proof.
  revert t. induction s as [|a s IH]; intros [|b t]; simpl; try done.
  intros [Hc Hst]. by rewrite Hc, (IH t Hst).
Qed.

Lemma case_variant_is_ascii (s t : string) :
  case_variant s t -> is_ascii s = is_ascii t.
Proof.
  revert t. induction s as [|a s IH]; intros [|b t]; simpl; try done.
  intros [Hc Hst]. rewrite (IH t Hst). f_equal.
  by rewrite <- (lower_ascii_is_ascii a), Hc, lower_ascii_is_ascii.
Qed.

(** ** The response interpreter *)

Section Interpreter.

Context {World Config : Type}.
Variable generate_answer : string -> Config -> World -> (exn + string) * World.
Variable json_loads : string -> option json.
Variable str_lower : string -> string.
Variable str_of : json -> string.

Local Abbreviation evaluate :=
  (evaluate_reasoning_with_model generate_answer json_loads str_lower str_of).
Local Abbreviation interpret := (interpret_response json_loads str_lower).
Local Abbreviation parse := (parse_response json_loads str_lower).

(** Once the request is built and the grader has answered, the call returns
    the interpretation of the answer. *)
Lemma evaluate_answered item config w prompt response w' :
  eval_question str_of item = inr prompt ->
  generate_answer prompt config w = (inr response, w') ->
  evaluate item config w = (inr (interpret response), w').
Proof.
  intros Hq Hg. unfold evaluate_reasoning_with_model, bind, lift, ret.
  by rewrite Hq, Hg.
Qed.

(** A call that returns has built its request and got one answer. *)
Lemma evaluate_returned item config w verdict w' :
  evaluate item config w = (inr verdict, w') ->
  exists prompt response,
    eval_question str_of item = inr prompt
    /\ generate_answer prompt config w = (inr response, w')
    /\ verdict = interpret response.
Proof.
  unfold evaluate_reasoning_with_model, bind, lift, ret.
  destruct (eval_question str_of item) as [e|prompt]; [done|].
  destruct (generate_answer prompt config w) as [[e|response] w1] eqn:Hg; [done|].
  intros [= <- <-]. by exists prompt, response.
Qed.

Lemma parse_undecodable response :
  (forall d, json_loads response <> Some (JObject d)) ->
  parse response = (invalid_verdict response, "invalid").
Proof.
  intros Hno. unfold parse_response.
  destruct (json_loads response) as [[]|]; try done.
  by edestruct Hno.
Qed.

Lemma parse_labelled response d label :
  json_loads response = Some (JObject d) ->
  dict_get "reasoning_quality" d = Some (JString label) ->
  parse response = (d, str_lower label).
Proof. intros Hd Hl. unfold parse_response. by rewrite Hd, Hl. Qed.

Lemma parse_unlabelled response d :
  json_loads response = Some (JObject d) ->
  dict_get "reasoning_quality" d = None ->
  parse response = (d, str_lower "invalid").
Proof. intros Hd Hl. unfold parse_response. by rewrite Hd, Hl. Qed.

Lemma parse_label_not_string response d v :
  json_loads response = Some (JObject d) ->
  dict_get "reasoning_quality" d = Some v ->
  (forall label, v <> JString label) ->
  parse response = (invalid_verdict response, "invalid").
Proof.
  intros Hd Hl Hv. unfold parse_response. rewrite Hd, Hl.
  destruct v; try done. by edestruct Hv.
Qed.

(** The dict bound to [parsed] is the decoded object or the stand-in. *)
Lemma parse_cases response :
  (exists d, json_loads response = Some (JObject d) /\ fst (parse response) = d)
  \/ fst (parse response) = invalid_verdict response.
Proof.
  unfold parse_response.
  destruct (json_loads response) as [[| | | | | |d]|]; simpl; try by right.
  destruct (dict_get "reasoning_quality" d) as [[]|]; simpl;
    try (by right); left; by exists d.
Qed.

Lemma interpret_unfold response :
  interpret response =
    dict_set "score" (JInt (score_of (snd (parse response)))) (fst (parse response)).
Proof. unfold interpret_response. by destruct (parse response). Qed.

Lemma interpret_score response :
  dict_get "score" (interpret response)
  = Some (JInt (score_of (snd (parse response)))).
Proof. rewrite interpret_unfold. apply dict_get_set_eq. Qed.

(** C1: when the grader's response does not decode to a JSON object (the
    decoder raises, or gives a value that is not an object), the call does
    not raise: it returns the verdict with label invalid, score 0 and an
    explanation that ends with the raw response, unchanged. *)
Theorem undecodable_response_is_invalid item config w prompt response w' :
  eval_question str_of item = inr prompt ->
  generate_answer prompt config w = (inr response, w') ->
  (forall d, json_loads response <> Some (JObject d)) ->
  exists explanation,
    evaluate item config w
    = (inr [("reasoning_quality", JString "invalid");
            ("explanation", JString explanation);
            ("score", JInt 0)], w')
    /\ explanation = "Model returned non-JSON output: " +:+ response
    /\ contains response explanation.
Proof.
  intros Hq Hg Hno. eexists. split; [|split; [reflexivity|]].
  - rewrite (evaluate_answered _ _ _ _ _ _ Hq Hg), interpret_unfold.
    by rewrite (parse_undecodable _ Hno).
  - apply contains_suffix.
Qed.

(** C7, amended: when the response decodes to an object whose label is a
    string that, once lowered, is none of excellent, good, weak and incorrect
    (a word that is not in the table, or the word invalid, which the table
    maps to 0), the verdict is the decoded object with score 0 added: it is
    not replaced by the stand-in for a decoding failure, and the grader's
    explanation and label are kept. The label has to be a string: a label of
    another type is handled as a decoding failure. *)
Theorem unknown_label_scores_zero item config w prompt response w' d label :
  eval_question str_of item = inr prompt ->
  generate_answer prompt config w = (inr response, w') ->
  json_loads response = Some (JObject d) ->
  dict_get "reasoning_quality" d = Some (JString label) ->
  str_lower label ∉ graded_labels ->
  exists verdict,
    evaluate item config w = (inr verdict, w')
    /\ verdict = dict_set "score" (JInt 0) d
    /\ dict_get "score" verdict = Some (JInt 0)
    /\ dict_get "explanation" verdict = dict_get "explanation" d
    /\ dict_get "reasoning_quality" verdict = Some (JString label)
    /\ other_fields ["score"] verdict = other_fields ["score"] d.
Proof.
  intros Hq Hg Hd Hl Hnone. eexists. split; [|split; [reflexivity|]].
  - rewrite (evaluate_answered _ _ _ _ _ _ Hq Hg), interpret_unfold.
    rewrite (parse_labelled _ _ _ Hd Hl). simpl.
    by rewrite (score_of_ungraded _ Hnone).
  - rewrite dict_get_set_eq, !dict_get_set_ne by done.
    rewrite dict_set_other_fields by set_solver. done.
Qed.

(** C9: whatever the grader answers, the verdict returned has a score field,
    the score is an integer from 0 to 4, and the field occurs once (the keys
    of a decoded object being distinct, as in every Python dict). *)
Theorem verdict_has_one_score item config w prompt response w' :
  eval_question str_of item = inr prompt ->
  generate_answer prompt config w = (inr response, w') ->
  (forall d, json_loads response = Some (JObject d) -> NoDup (dict_keys d)) ->
  exists verdict n,
    evaluate item config w = (inr verdict, w')
    /\ dict_get "score" verdict = Some (JInt n)
    /\ 0 <= n <= 4
    /\ count_key "score" verdict = 1%nat.
Proof.
  intros Hq Hg Hwf. eexists _, _. split; [by eapply evaluate_answered|].
  split; [apply interpret_score|]. split; [apply score_of_range|].
  rewrite interpret_unfold, count_key_set_eq.
  destruct (parse_cases response) as [(d & Hd & ->)| ->].
  - pose proof (count_key_NoDup "score" d (Hwf d Hd)). lia.
  - reflexivity.
Qed.

(** C10: when the response decodes to an object whose label is not a string
    (a number, null, a boolean, a list, an object), the decoded object is
    dropped: the verdict is the stand-in for a decoding failure, with label
    invalid, the raw response in the explanation and score 0. *)
Theorem non_string_label_is_decode_failure
    item config w prompt response w' d v :
  eval_question str_of item = inr prompt ->
  generate_answer prompt config w = (inr response, w') ->
  json_loads response = Some (JObject d) ->
  dict_get "reasoning_quality" d = Some v ->
  (forall label, v <> JString label) ->
  evaluate item config w
  = (inr [("reasoning_quality", JString "invalid");
          ("explanation",
           JString ("Model returned non-JSON output: " +:+ response));
          ("score", JInt 0)], w')
  /\ parse response = (invalid_verdict response, "invalid").
Proof.
  intros Hq Hg Hd Hl Hv.
  pose proof (parse_label_not_string _ _ _ Hd Hl Hv) as Hp. split; [|done].
  rewrite (evaluate_answered _ _ _ _ _ _ Hq Hg), interpret_unfold.
  by rewrite Hp.
Qed.

(** C5, as the code has it: when the response decodes to an object without
    the field reasoning_quality, the quality that is scored is invalid and
    the verdict is the decoded object with score 0 added. No label is stored
    in it, and its explanation is the one of the decoded object (none when
    the object has none), not the raw response. *)
Theorem missing_label_keeps_decoded_object
    item config w prompt response w' d :
  str_lower "invalid" = "invalid" ->
  eval_question str_of item = inr prompt ->
  generate_answer prompt config w = (inr response, w') ->
  json_loads response = Some (JObject d) ->
  dict_get "reasoning_quality" d = None ->
  exists verdict,
    evaluate item config w = (inr verdict, w')
    /\ parse response = (d, "invalid")
    /\ verdict = dict_set "score" (JInt 0) d
    /\ dict_get "score" verdict = Some (JInt 0)
    /\ dict_get "reasoning_quality" verdict = None
    /\ dict_get "explanation" verdict = dict_get "explanation" d.
Proof.
  intros Hlow Hq Hg Hd Hl.
  pose proof (parse_unlabelled _ _ Hd Hl) as Hp. rewrite Hlow in Hp.
  eexists. split; [|split; [done|split; [reflexivity|]]].
  - rewrite (evaluate_answered _ _ _ _ _ _ Hq Hg), interpret_unfold.
    by rewrite Hp.
  - by rewrite dict_get_set_eq, !dict_get_set_ne.
Qed.

(** C6, as the code has it: the label is lowered before the lookup and is
    not stripped, so the score is the one of the lowered label as it stands.
    A label that differs from a text [canon] in the case of ASCII letters
    only gets the score of [canon] in lower case, so every such variant of
    excellent scores 4; the label stored in the verdict is the one the grader
    wrote. *)
Theorem label_matching_ignores_case
    item config w prompt response w' d label :
  (forall s, is_ascii s = true -> str_lower s = ascii_lower s) ->
  eval_question str_of item = inr prompt ->
  generate_answer prompt config w = (inr response, w') ->
  json_loads response = Some (JObject d) ->
  dict_get "reasoning_quality" d = Some (JString label) ->
  exists verdict,
    evaluate item config w = (inr verdict, w')
    /\ parse response = (d, str_lower label)
    /\ dict_get "score" verdict = Some (JInt (score_of (str_lower label)))
    /\ dict_get "reasoning_quality" verdict = Some (JString label)
    /\ (forall canon,
          is_ascii canon = true -> case_variant label canon ->
          dict_get "score" verdict = Some (JInt (score_of (ascii_lower canon))))
    /\ (case_variant label "excellent" ->
        dict_get "score" verdict = Some (JInt 4)).
Proof.
  intros Hlow Hq Hg Hd Hl.
  pose proof (parse_labelled _ _ _ Hd Hl) as Hp.
  assert (Hcanon : forall canon,
            is_ascii canon = true -> case_variant label canon ->
            str_lower label = ascii_lower canon).
  { intros canon Hca Hcv.
    rewrite Hlow by (by rewrite (case_variant_is_ascii _ _ Hcv)).
    by apply case_variant_lower. }
  eexists. split; [by eapply evaluate_answered|]. split; [done|].
  rewrite interpret_score, interpret_unfold, Hp. simpl.
  split; [done|]. split; [by rewrite dict_get_set_ne|]. split.
  - intros canon Hca Hcv. by rewrite (Hcanon canon Hca Hcv).
  - intros Hcv. by rewrite (Hcanon "excellent" eq_refl Hcv).
Qed.

End Interpreter.

(** ** The mean *)

Lemma sum_Z_bounds (zs : list Z) (hi : Z) :
  Forall (fun z => 0 <= z <= hi) zs ->
  0 <= sum_Z zs <= hi * Z.of_nat (length zs).
Proof.
  induction 1 as [|z zs Hz _ IH]; simpl; [lia|].
  unfold sum_Z in *. simpl. lia.
Qed.

Lemma py_sum_ints (zs : list Z) : py_sum (map JInt zs) = inr (sum_Z zs).
Proof.
  induction zs as [|z zs IH]; simpl; [done|]. by rewrite IH.
Qed.

Lemma mean_table_checked : mean_table_ok = true.
Proof. vm_compute. reflexivity. Qed.

(** Up to ten scores from 0 to 4 have a mean, and it is the rounded quotient. *)
Lemma mean_score_defined (scores : list Z) :
  scores <> [] ->
  (length scores <= 10)%nat ->
  Forall (fun z => 0 <= z <= 4) scores ->
  exists avg, mean_score scores = inr avg
    /\ is_rounded_mean avg (sum_Z scores) (Z.of_nat (length scores)) = true.
Proof.
  intros Hne Hlen Hall. unfold mean_score.
  pose proof (sum_Z_bounds scores 4 Hall) as Hsum.
  assert (Hcount : 1 <= Z.of_nat (length scores) <= 10)
    by (destruct scores; [done|simpl in *; lia]).
  pose proof mean_table_checked as Hok. unfold mean_table_ok in Hok.
  rewrite forallb_forall in Hok.
  specialize (Hok (sum_Z scores)). rewrite forallb_forall in Hok.
  assert (Hin1 : In (sum_Z scores) (seqZ 0 41))
    by (apply list_elem_of_In, elem_of_seqZ; lia).
  assert (Hin2 : In (Z.of_nat (length scores)) (seqZ 1 10))
    by (apply list_elem_of_In, elem_of_seqZ; lia).
  specialize (Hok Hin1 _ Hin2).
  destruct (true_div (sum_Z scores) (Z.of_nat (length scores))) as [e|avg];
    [done|]. by exists avg.
Qed.

(** ** The batch driver *)

Section Driver.

Context {World Config : Type}.
Variable generate_answer : string -> Config -> World -> (exn + string) * World.
Variable json_loads : string -> option json.
Variable str_lower : string -> string.
Variable str_of : json -> string.

Local Abbreviation evaluate :=
  (evaluate_reasoning_with_model generate_answer json_loads str_lower str_of).
Local Abbreviation interpret := (interpret_response json_loads str_lower).
Local Abbreviation parse := (parse_response json_loads str_lower).
Local Abbreviation loop :=
  (evaluate_items generate_answer json_loads str_lower str_of).
Local Abbreviation process :=
  (process_json_file generate_answer json_loads str_lower str_of).
Local Abbreviation calls := (grader_calls generate_answer str_of).
Local Abbreviation response_score := (fun r => score_of (snd (parse r))).

Lemma eval_question_dict item prompt :
  eval_question str_of item = inr prompt -> exists fields, item = JObject fields.
Proof. destruct item; try done. by eexists. Qed.

Lemma grader_calls_length config items w responses w' :
  calls config items w responses w' -> length responses = length items.
Proof. induction 1; simpl; congruence. Qed.

(** The invariant of the loop on the records from [j] on: a loop that ends
    has sent their requests in order; it leaves each of them with its verdict
    attached, at its place in the document, and adds the scores of the
    verdicts to the scores collected before. *)
Lemma evaluate_items_returned m j d l scores config w data' scores' w' :
  dict_get "results" d = Some (JArray l) ->
  (j + m <= length l)%nat ->
  loop (map InResults (seq j m)) (JObject d) scores config w
  = (inr (data', scores'), w') ->
  exists responses,
    calls config (take m (drop j l)) w responses w'
    /\ data' = JObject
                 (dict_set "results"
                    (JArray (take j l
                             ++ zip_with attach_verdict (take m (drop j l))
                                  (map interpret responses)
                             ++ drop (j + m) l)) d)
    /\ scores' = scores ++ map JInt (map response_score responses).
Proof.
  revert j d l scores w.
  induction m as [|m IH]; intros j d l scores w Hres Hlen.
  - intros [= <- <- <-]. exists []. split; [rewrite take_0; constructor|].
    simpl. rewrite Nat.add_0_r, take_drop, app_nil_r.
    by rewrite (dict_set_same _ _ _ Hres).
  - destruct (lookup_lt_is_Some_2 l j) as [x Hx]; [lia|].
    simpl. unfold bind at 1. unfold results_of. rewrite Hres, Hx. simpl.
    destruct (evaluate x config w) as [[e|verdict] w1] eqn:Hev; [done|].
    apply evaluate_returned in Hev as (prompt & response & Hq & Hg & ->).
    destruct (eval_question_dict _ _ Hq) as [fields ->].
    unfold bind at 1. unfold lift at 1. unfold assign, results_of. simpl.
    rewrite Hres, Hx. simpl.
    unfold bind at 1. unfold lift at 1. rewrite interpret_score.
    intros Hrest.
    eapply (IH (S j) _ (<[j:=_]> l)) in Hrest as (responses & Hcalls & -> & ->);
      [|apply dict_get_set_eq|rewrite length_insert; lia].
    rewrite drop_insert_lt in Hcalls by lia.
    exists (response :: responses).
    rewrite (drop_S _ _ _ Hx). simpl. split; [by econstructor|]. split.
    + rewrite dict_set_set. do 3 f_equal.
      erewrite take_S_r by (apply list_lookup_insert_eq; lia).
      rewrite take_insert_ge by lia.
      rewrite !drop_insert_lt by lia.
      rewrite <- app_assoc. simpl. by rewrite Nat.add_succ_r.
    + by rewrite <- app_assoc.
Qed.

(** The converse: when the grader answers the requests of the records from
    [j] on, the loop ends. *)
Lemma evaluate_items_answered m j d l scores config w responses w' :
  dict_get "results" d = Some (JArray l) ->
  (j + m <= length l)%nat ->
  calls config (take m (drop j l)) w responses w' ->
  loop (map InResults (seq j m)) (JObject d) scores config w
  = (inr (JObject
            (dict_set "results"
               (JArray (take j l
                        ++ zip_with attach_verdict (take m (drop j l))
                             (map interpret responses)
                        ++ drop (j + m) l)) d),
          scores ++ map JInt (map response_score responses)), w').
Proof.
  revert j d l scores w responses.
  induction m as [|m IH]; intros j d l scores w responses Hres Hlen Hcalls.
  - rewrite take_0 in Hcalls. inversion Hcalls; subst. simpl.
    rewrite Nat.add_0_r, take_drop, !app_nil_r.
    by rewrite (dict_set_same _ _ _ Hres).
  - destruct (lookup_lt_is_Some_2 l j) as [x Hx]; [lia|].
    rewrite (drop_S _ _ _ Hx) in Hcalls. simpl in Hcalls.
    inversion Hcalls as [|? ? ? prompt response w1 responses' ? Hq Hg Hrest]; subst.
    destruct (eval_question_dict _ _ Hq) as [fields ->].
    simpl. unfold bind at 1. unfold results_of. rewrite Hres, Hx. simpl.
    rewrite (evaluate_answered _ _ _ _ _ _ _ _ _ _ Hq Hg).
    unfold bind at 1. unfold lift at 1. unfold assign, results_of. simpl.
    rewrite Hres, Hx. simpl.
    unfold bind at 1. unfold lift at 1. rewrite interpret_score.
    erewrite (IH (S j) _ _ _ _ responses');
      [|apply dict_get_set_eq|rewrite length_insert; lia
       |by rewrite drop_insert_lt by lia].
    rewrite (drop_S _ _ _ Hx), <- (app_assoc scores), dict_set_set. simpl.
    do 6 f_equal.
    erewrite take_S_r by (apply list_lookup_insert_eq; lia).
    rewrite take_insert_ge by lia.
    rewrite !drop_insert_lt by lia.
    rewrite <- app_assoc. simpl. by rewrite Nat.add_succ_r.
Qed.

(** A loop over the characters of a string stops at the first one, before
    any call. *)
Lemma evaluate_items_strings (texts : list string) data scores config w :
  loop (map (fun c => Temporary (JString c)) texts) data scores config w
  = match texts with
    | [] => (inr (data, scores), w)
    | _ :: _ => (inl TypeError, w)
    end.
Proof. by destruct texts. Qed.

Lemma response_scores_range (responses : list string) :
  Forall (fun z => 0 <= z <= 4) (map response_score responses).
Proof.
  apply Forall_forall. intros z Hz.
  apply list_elem_of_fmap in Hz as (r & -> & _). apply score_of_range.
Qed.

Lemma take_length_take (l : list json) n :
  take (length (take n l)) l = take n l.
Proof.
  rewrite length_take. destruct (decide (length l <= n)%nat).
  - by rewrite Nat.min_r, !take_ge by lia.
  - by rewrite Nat.min_l by lia.
Qed.

Lemma drop_length_take (l : list json) n :
  drop (length (take n l)) l = drop n l.
Proof.
  rewrite length_take. destruct (decide (length l <= n)%nat).
  - by rewrite Nat.min_r, !drop_ge by lia.
  - by rewrite Nat.min_l by lia.
Qed.

(** What a run that ends without an exception has done. *)
Lemma process_returned data config w out w' :
  process data config w = (inr out, w') ->
  exists d results responses avg,
    data = JObject d
    /\ dict_get "results" d = Some (JArray results)
    /\ calls config (take 10 results) w responses w'
    /\ mean_score (map response_score responses) = inr avg
    /\ out = JObject
               (dict_set "reasoning_average_score" (JFloat avg)
                  (dict_set "results"
                     (JArray (zip_with attach_verdict (take 10 results)
                                (map interpret responses)
                              ++ drop 10 results)) d)).
Proof.
  unfold process_json_file. unfold bind at 1. unfold lift at 1.
  destruct data as [| | | | | |d]; simpl; try done.
  destruct (dict_get "results" d) as [results|] eqn:Hres; [|done].
  unfold bind, lift.
  destruct results as [| | | |s|results|]; simpl; try done.
  - rewrite evaluate_items_strings.
    destruct (take 10 (code_points s)); simpl; intros [=].
  - destruct (loop _ _ _ _ _) as [[e|[data' scores]] w1] eqn:Hloop; [done|].
    apply evaluate_items_returned with (l := results) in Hloop
      as (responses & Hcalls & -> & ->);
      [|done|simpl; rewrite length_take; lia].
    rewrite drop_0, take_length_take in Hcalls.
    simpl. rewrite drop_0, take_length_take, drop_length_take.
    rewrite py_sum_ints, !length_map.
    destruct (true_div _ _) as [e|avg] eqn:Hdiv; [done|].
    intros [= <- <-]. exists d, results, responses, avg.
    repeat split; try done.
    unfold mean_score. by rewrite length_map.
Qed.

(** The converse: when the first records are dicts with the three fields and
    the grader answers each request, the run ends without an exception. *)
Lemma process_answered d results config w responses w' :
  dict_get "results" d = Some (JArray results) ->
  results <> [] ->
  calls config (take 10 results) w responses w' ->
  exists avg,
    mean_score (map response_score responses) = inr avg
    /\ process (JObject d) config w
       = (inr (JObject
                 (dict_set "reasoning_average_score" (JFloat avg)
                    (dict_set "results"
                       (JArray (zip_with attach_verdict (take 10 results)
                                  (map interpret responses)
                                ++ drop 10 results)) d))), w').
Proof.
  intros Hres Hne Hcalls.
  pose proof (grader_calls_length _ _ _ _ _ Hcalls) as Hlen.
  rewrite length_take in Hlen.
  destruct (mean_score_defined (map response_score responses)) as (avg & Havg & _).
  - destruct responses; [|done]. destruct results; [done|simpl in Hlen; lia].
  - rewrite length_map. lia.
  - apply response_scores_range.
  - exists avg. split; [done|].
    unfold process_json_file, bind, lift. simpl. rewrite Hres. simpl.
    rewrite (evaluate_items_answered _ 0 d results [] config w responses w');
      [|done|simpl; rewrite length_take; lia
       |by rewrite drop_0, take_length_take].
    simpl. rewrite drop_0, take_length_take, drop_length_take, py_sum_ints.
    unfold mean_score in Havg. rewrite !length_map in *. by rewrite Havg.
Qed.

(** C8: when the results of the document are an empty list, no record is
    evaluated and the mean of no score raises ZeroDivisionError; no output
    document is produced. *)
Theorem empty_batch_raises d config w :
  dict_get "results" d = Some (JArray []) ->
  process (JObject d) config w = (inl ZeroDivisionError, w)
  /\ mean_score [] = inl ZeroDivisionError.
Proof.
  intros Hres. split; [|done].
  unfold process_json_file, bind, lift. simpl. by rewrite Hres.
Qed.

(** *** The output document *)

Lemma attached_length config items w responses w' :
  calls config items w responses w' ->
  length (zip_with attach_verdict items (map interpret responses)) = length items.
Proof.
  intros H. apply grader_calls_length in H.
  rewrite length_zip_with, length_map. lia.
Qed.

Lemma attached_gain config items w responses w' :
  calls config items w responses w' ->
  Forall2 gains_verdict items
    (zip_with attach_verdict items (map interpret responses)).
Proof.
  induction 1 as [|item items w prompt response w1 responses w2 Hq Hg _ IH];
    simpl; constructor; [|done].
  destruct (eval_question_dict _ _ Hq) as [fields ->].
  by exists fields, (interpret response).
Qed.

Lemma attached_scores config items w responses w' :
  calls config items w responses w' ->
  map record_score (zip_with attach_verdict items (map interpret responses))
  = map Some (map response_score responses).
Proof.
  induction 1 as [|item items w prompt response w1 responses w2 Hq Hg _ IH];
    simpl; [done|].
  destruct (eval_question_dict _ _ Hq) as [fields ->].
  rewrite IH. f_equal. simpl. rewrite dict_get_set_eq.
  unfold verdict_score. by rewrite interpret_score.
Qed.

(** The first ten records of a list whose head is [done], the records that
    the loop processed, and whose tail is what follows the first ten. *)
Lemma take_processed (results done : list json) :
  length done = length (take 10 results) ->
  take 10 (done ++ drop 10 results) = done
  /\ drop 10 (done ++ drop 10 results) = drop 10 results.
Proof.
  rewrite length_take. intros Hlen.
  destruct (decide (length results <= 10)%nat) as [Hle|Hgt].
  - rewrite (drop_ge results) by lia. rewrite app_nil_r.
    rewrite take_ge, drop_ge by lia. done.
  - rewrite take_app_length', drop_app_length' by lia. done.
Qed.

(** C4: when a run ends, the value stored under reasoning_average_score is
    the mean of the scores of the processed records, one score for each and
    no other: their sum divided by their number, as a float. The division is
    exact when the number divides the sum and is rounded to the nearest float
    otherwise; the scores 4, 3, 2, 1, 0 give 2.0. *)
Theorem average_is_mean_of_collected_scores data config w out w' :
  process data config w = (inr out, w') ->
  exists d' scores avg,
    out = JObject d'
    /\ map record_score (processed_records out) = map Some scores
    /\ scores <> []
    /\ dict_get "reasoning_average_score" d' = Some (JFloat avg)
    /\ mean_score scores = inr avg
    /\ is_rounded_mean avg (sum_Z scores) (Z.of_nat (length scores)) = true
    /\ (scores = [4; 3; 2; 1; 0] -> avg = float_of_Z 2).
Proof.
  intros Hrun.
  apply process_returned in Hrun
    as (d & results & responses & avg & -> & Hres & Hcalls & Havg & ->).
  pose proof (grader_calls_length _ _ _ _ _ Hcalls) as Hlen.
  pose proof (attached_length _ _ _ _ _ Hcalls) as Hatt.
  destruct (take_processed results _ Hatt) as [Htake _].
  assert (Hne : map response_score responses <> [])
    by (intros E; by rewrite E in Havg).
  destruct (mean_score_defined (map response_score responses)) as (avg' & Havg' & Hround).
  { done. }
  { rewrite length_map, Hlen, length_take. lia. }
  { apply response_scores_range. }
  assert (avg' = avg) as -> by congruence.
  eexists _, (map response_score responses), avg.
  split; [reflexivity|]. repeat split; try done.
  - unfold processed_records.
    rewrite dict_get_set_ne, dict_get_set_eq, Htake by done.
    by eapply attached_scores.
  - apply dict_get_set_eq.
  - intros E. rewrite E in Havg. vm_compute in Havg. by injection Havg as <-.
Qed.

End Driver.

(** ** The calls to the grader, counted *)

Section CountedDriver.

Context {World Config : Type}.
Variable generate_answer : string -> Config -> World -> (exn + string) * World.
Variable json_loads : string -> option json.
Variable str_lower : string -> string.
Variable str_of : json -> string.

Local Abbreviation evaluate :=
  (evaluate_reasoning_with_model generate_answer json_loads str_lower str_of).
Local Abbreviation interpret := (interpret_response json_loads str_lower).
Local Abbreviation loop :=
  (evaluate_items generate_answer json_loads str_lower str_of).
Local Abbreviation process :=
  (process_json_file generate_answer json_loads str_lower str_of).
Local Abbreviation calls := (grader_calls generate_answer str_of).
Local Abbreviation counted_ga := (counted generate_answer).
Local Abbreviation evaluate_c :=
  (evaluate_reasoning_with_model counted_ga json_loads str_lower str_of).
Local Abbreviation loop_c :=
  (evaluate_items counted_ga json_loads str_lower str_of).
Local Abbreviation process_c :=
  (process_json_file counted_ga json_loads str_lower str_of).

(** The counter is a witness only: it does not change what a computation
    does. *)
Lemma calls_at_most_lift {A : Type} (r : exn + A) :
  calls_at_most (World:=World) 0 (lift r) (lift r).
Proof. intros w n. exists O. split; [done|]. unfold lift. simpl. by rewrite Nat.add_0_r. Qed.

Lemma calls_at_most_ret {A : Type} (a : A) :
  calls_at_most (World:=World) 0 (ret a) (ret a).
Proof. apply (calls_at_most_lift (inr a)). Qed.

Lemma calls_at_most_grader prompt config :
  calls_at_most 1 (counted_ga prompt config) (generate_answer prompt config).
Proof.
  intros w n. exists 1%nat. split; [done|]. unfold counted. simpl.
  destruct (generate_answer prompt config w). simpl. by rewrite Nat.add_1_r.
Qed.

Lemma calls_at_most_bind {A B : Type} k1 k2
    (c_c : World * nat -> (exn + A) * (World * nat)) (c : World -> (exn + A) * World)
    (f_c : A -> World * nat -> (exn + B) * (World * nat))
    (f : A -> World -> (exn + B) * World) :
  calls_at_most k1 c_c c ->
  (forall a, calls_at_most k2 (f_c a) (f a)) ->
  calls_at_most (k1 + k2) (bind c_c f_c) (bind c f).
Proof.
  intros Hc Hf w n. unfold bind.
  destruct (Hc w n) as (j1 & Hj1 & ->).
  destruct (c w) as [[e|a] w1]; simpl.
  - exists j1. split; [lia|done].
  - destruct (Hf a w1 (n + j1)%nat) as (j2 & Hj2 & ->).
    exists (j1 + j2)%nat. split; [lia|]. by rewrite Nat.add_assoc.
Qed.

Lemma calls_at_most_bind_lift {A B : Type} k (r : exn + A)
    (f_c : A -> World * nat -> (exn + B) * (World * nat))
    (f : A -> World -> (exn + B) * World) :
  (forall a, r = inr a -> calls_at_most k (f_c a) (f a)) ->
  calls_at_most k (bind (lift r) f_c) (bind (lift r) f).
Proof.
  intros Hf w n. unfold bind, lift. destruct r as [e|a]; simpl.
  - exists O. split; [lia|]. by rewrite Nat.add_0_r.
  - by apply Hf.
Qed.

Lemma calls_at_most_weaken {A : Type} k k'
    (c_c : World * nat -> (exn + A) * (World * nat)) (c : World -> (exn + A) * World) :
  (k <= k')%nat -> calls_at_most k c_c c -> calls_at_most k' c_c c.
Proof.
  intros Hle Hc w n. destruct (Hc w n) as (j & Hj & ->).
  exists j. split; [lia|done].
Qed.

(** A call to [evaluate_reasoning_with_model] calls the grader at most once. *)
Lemma evaluate_counted item config :
  calls_at_most 1 (evaluate_c item config) (evaluate item config).
Proof.
  unfold evaluate_reasoning_with_model.
  apply (calls_at_most_bind 0 1); [apply calls_at_most_lift|]. intros prompt.
  apply (calls_at_most_bind 1 0); [apply calls_at_most_grader|]. intros response.
  apply calls_at_most_ret.
Qed.

(** The loop calls the grader at most once for each item. *)
Lemma evaluate_items_counted items data scores config :
  calls_at_most (length items) (loop_c items data scores config)
    (loop items data scores config).
Proof.
  revert data scores. induction items as [|item items IH]; intros data scores; simpl.
  - apply calls_at_most_ret.
  - apply (calls_at_most_bind 1 (length items)); [apply evaluate_counted|].
    intros verdict.
    apply (calls_at_most_bind 0 (length items)); [apply calls_at_most_lift|].
    intros data'.
    apply (calls_at_most_bind 0 (length items)); [apply calls_at_most_lift|].
    intros score. apply IH.
Qed.

Lemma slice10_length results items :
  slice10 results = inr items -> (length items <= 10)%nat.
Proof.
  destruct results; simpl; try done; intros [= <-];
    rewrite ?length_map, ?length_seq, length_take; lia.
Qed.

(** A run calls the grader at most ten times. *)
Lemma process_counted data config :
  calls_at_most 10 (process_c data config) (process data config).
Proof.
  unfold process_json_file.
  apply (calls_at_most_bind 0 10); [apply calls_at_most_lift|]. intros results.
  apply (calls_at_most_bind 0 10); [apply calls_at_most_lift|]. intros _.
  apply calls_at_most_bind_lift. intros items Hslice.
  apply slice10_length in Hslice.
  apply (calls_at_most_weaken (length items + 0)); [lia|].
  apply calls_at_most_bind; [apply evaluate_items_counted|].
  intros [data' scores].
  apply (calls_at_most_bind 0 0); [apply calls_at_most_lift|]. intros total.
  apply (calls_at_most_bind 0 0); [apply calls_at_most_lift|]. intros avg.
  apply calls_at_most_lift.
Qed.

(** Answered calls add exactly one each to the counter. *)
Lemma grader_calls_counted config items wn responses wn' :
  grader_calls counted_ga str_of config items wn responses wn' ->
  calls config items (fst wn) responses (fst wn')
  /\ snd wn' = (snd wn + length responses)%nat.
Proof.
  induction 1 as [wn|item items [w n] prompt response [w1 n1] responses wn2
                    Hq Hg _ [IHc IHn]]; simpl in *.
  - split; [constructor|lia].
  - unfold counted in Hg. simpl in Hg.
    destruct (generate_answer prompt config w) as [r w1'] eqn:Hg'.
    injection Hg as -> -> <-.
    split; [by econstructor|lia].
Qed.

(** C3: a run calls the grader at most ten times and, when it ends, once for
    each of the first ten records and for no other. The output document is
    the input document in which each of these records has its verdict stored
    under reasoning_evaluation and the mean is stored under
    reasoning_average_score: the records after the tenth, the other fields of
    the processed records and of the document, and their order are as in the
    input. *)
Theorem output_is_input_plus_evaluations data config w n result w' n' :
  process_c data config (w, n) = (result, (w', n')) ->
  process data config w = (result, w')
  /\ (n <= n' <= n + 10)%nat
  /\ forall out, result = inr out ->
       exists d results responses avg,
         data = JObject d
         /\ dict_get "results" d = Some (JArray results)
         /\ calls config (take 10 results) w responses w'
         /\ n' = (n + length responses)%nat
         /\ length responses = Nat.min 10 (length results)
         /\ out = JObject
                    (dict_set "reasoning_average_score" (JFloat avg)
                       (dict_set "results"
                          (JArray (zip_with attach_verdict (take 10 results)
                                     (map interpret responses)
                                   ++ drop 10 results)) d))
         /\ Forall2 gains_verdict (take 10 results) (processed_records out)
         /\ remaining_records out = drop 10 results
         /\ (forall d', out = JObject d' ->
              other_fields ["results"; "reasoning_average_score"] d'
              = other_fields ["results"; "reasoning_average_score"] d).
Proof.
  intros Hrun.
  destruct (process_counted data config w n) as (k & Hk & Herase).
  rewrite Hrun in Herase. injection Herase as Hr Hw Hn.
  split; [rewrite Hr, Hw; by destruct (process data config w)|].
  split; [lia|]. clear k Hk Hr Hw Hn.
  intros out ->.
  apply process_returned in Hrun
    as (d & results & responses & avg & -> & Hres & Hcalls & Havg & ->).
  apply grader_calls_counted in Hcalls as [Hcalls Hn]. simpl in Hcalls, Hn.
  pose proof Hcalls as Hlen. apply grader_calls_length in Hlen.
  pose proof Hcalls as Hatt. apply (attached_length _ json_loads str_lower) in Hatt.
  destruct (take_processed results _ Hatt) as [Htake Hdrop].
  exists d, results, responses, avg.
  repeat split; try done.
  - rewrite Hlen, length_take. done.
  - unfold processed_records.
    rewrite dict_get_set_ne, dict_get_set_eq, Htake by done.
    by eapply attached_gain.
  - unfold remaining_records.
    by rewrite dict_get_set_ne, dict_get_set_eq, Hdrop.
  - intros d' [= <-]. rewrite !dict_set_other_fields by set_solver. done.
Qed.

End CountedDriver.

(** ** The module on the scripted grader *)

Lemma undecodable_response_is_invalid_witness :
  (forall d, Json.loads "I cannot answer in JSON." <> Some (JObject d))
  /\ sample_evaluate (sample_record 1) tt ["I cannot answer in JSON."]
     = (inr [("reasoning_quality", JString "invalid");
             ("explanation",
              JString "Model returned non-JSON output: I cannot answer in JSON.");
             ("score", JInt 0)], []).
Proof.
  assert (Hno : forall d, Json.loads "I cannot answer in JSON." <> Some (JObject d))
    by (intros d H; vm_compute in H; discriminate H).
  split; [exact Hno|].
  destruct (undecodable_response_is_invalid scripted_answer Json.loads ascii_lower
              str_of_sample (sample_record 1) tt ["I cannot answer in JSON."]
              sample_prompt "I cannot answer in JSON." [] eq_refl eq_refl Hno)
    as (explanation & Hrun & -> & _).
  exact Hrun.
Defined.

Lemma unknown_label_scores_zero_witness :
  let response := verdict_text "Invalid" "sound" in
  let d := [("reasoning_quality", JString "Invalid"); ("explanation", JString "sound")] in
  Json.loads response = Some (JObject d)
  /\ (ascii_lower "Invalid" ∉ graded_labels)
  /\ sample_evaluate (sample_record 1) tt [response]
     = (inr [("reasoning_quality", JString "Invalid");
             ("explanation", JString "sound");
             ("score", JInt 0)], []).
Proof.
  intros response d.
  assert (Hd : Json.loads response = Some (JObject d)) by (vm_compute; reflexivity).
  assert (Hnone : ascii_lower "Invalid" ∉ graded_labels)
    by (apply (bool_decide_unpack (_ ∉ _)); vm_compute; reflexivity).
  split; [exact Hd|]. split; [exact Hnone|].
  destruct (unknown_label_scores_zero scripted_answer Json.loads ascii_lower
              str_of_sample (sample_record 1) tt [response] sample_prompt response []
              d "Invalid" eq_refl eq_refl Hd eq_refl Hnone)
    as (verdict & Hrun & -> & _).
  exact Hrun.
Defined.

(** C7 fails as stated: this response decodes to an object whose label is
    null, which is no word of the table, and the verdict returned is the
    stand-in for a decoding failure: the grader's explanation, fine, is
    replaced by a text that holds the raw response. *)
Lemma null_label_counterexample :
  let response := null_label_text in
  let d := [("reasoning_quality", JNull); ("explanation", JString "fine")] in
  let verdict := sample_interpret response in
  Json.loads response = Some (JObject d)
  /\ dict_get "reasoning_quality" d = Some JNull
  /\ (forall quality,
        dict_get "reasoning_quality" d <> Some (JString quality))
  /\ sample_evaluate (sample_record 1) tt [response] = (inr verdict, [])
  /\ verdict = dict_set "score" (JInt 0) (invalid_verdict response)
  /\ dict_get "score" verdict = Some (JInt 0)
  /\ dict_get "explanation" d = Some (JString "fine")
  /\ dict_get "explanation" verdict
     = Some (JString ("Model returned non-JSON output: " +:+ response))
  /\ dict_get "explanation" verdict <> dict_get "explanation" d.
Proof.
  intros response d verdict.
  split; [vm_compute; reflexivity|].
  split; [reflexivity|].
  split; [intros quality H; discriminate H|].
  split; [vm_compute; reflexivity|]. split; [vm_compute; reflexivity|].
  split; [vm_compute; reflexivity|]. split; [reflexivity|].
  split; [vm_compute; reflexivity|].
  intros H. vm_compute in H. discriminate H.
Qed.

Lemma verdict_has_one_score_witness :
  let response := verdict_text "Good" "mostly sound" in
  (forall d, Json.loads response = Some (JObject d) -> NoDup (dict_keys d))
  /\ exists verdict,
       sample_evaluate (sample_record 1) tt [response] = (inr verdict, [])
       /\ dict_get "score" verdict = Some (JInt 3)
       /\ count_key "score" verdict = 1%nat.
Proof.
  intros response.
  assert (Hwf : forall d, Json.loads response = Some (JObject d) -> NoDup (dict_keys d)).
  { intros d H. vm_compute in H.
    assert (d = [("reasoning_quality", JString "Good");
                 ("explanation", JString "mostly sound")]) as -> by congruence.
    apply (bool_decide_unpack (NoDup _)). vm_compute. reflexivity. }
  split; [exact Hwf|].
  destruct (verdict_has_one_score scripted_answer Json.loads ascii_lower
              str_of_sample (sample_record 1) tt [response] sample_prompt response []
              eq_refl eq_refl Hwf)
    as (verdict & n & Hrun & Hscore & Hrange & Hcount).
  exists verdict. split; [exact Hrun|]. split; [|exact Hcount].
  injection Hrun as <-. reflexivity.
Defined.

Lemma non_string_label_is_decode_failure_witness :
  let d := [("reasoning_quality", JInt 4); ("explanation", JString "fine")] in
  Json.loads numeric_label_text = Some (JObject d)
  /\ sample_evaluate (sample_record 1) tt [numeric_label_text]
     = (inr [("reasoning_quality", JString "invalid");
             ("explanation",
              JString ("Model returned non-JSON output: " +:+ numeric_label_text));
             ("score", JInt 0)], []).
Proof.
  intros d.
  assert (Hd : Json.loads numeric_label_text = Some (JObject d))
    by (vm_compute; reflexivity).
  split; [exact Hd|].
  assert (Hv : forall label, JInt 4 <> JString label) by (intros label H; discriminate H).
  exact (proj1 (non_string_label_is_decode_failure scripted_answer Json.loads
                  ascii_lower str_of_sample (sample_record 1) tt [numeric_label_text]
                  sample_prompt numeric_label_text [] d (JInt 4)
                  eq_refl eq_refl Hd eq_refl Hv)).
Defined.

Lemma missing_label_keeps_decoded_object_witness :
  let response := unlabelled_text "ok" in
  Json.loads response = Some (JObject [("explanation", JString "ok")])
  /\ sample_evaluate (sample_record 1) tt [response]
     = (inr [("explanation", JString "ok"); ("score", JInt 0)], []).
Proof.
  intros response.
  assert (Hd : Json.loads response = Some (JObject [("explanation", JString "ok")]))
    by (vm_compute; reflexivity).
  split; [exact Hd|].
  destruct (missing_label_keeps_decoded_object scripted_answer Json.loads ascii_lower
              str_of_sample (sample_record 1) tt [response] sample_prompt response []
              [("explanation", JString "ok")] eq_refl eq_refl eq_refl Hd eq_refl)
    as (verdict & Hrun & _ & -> & _).
  exact Hrun.
Defined.

(** C5 fails as stated: this response decodes to an object without the field
    reasoning_quality, and the verdict returned has no label at all and the
    explanation ok, which does not hold the raw response. *)
Lemma missing_label_counterexample :
  let response := unlabelled_text "ok" in
  let verdict := sample_interpret response in
  Json.loads response = Some (JObject [("explanation", JString "ok")])
  /\ dict_get "reasoning_quality" [("explanation", JString "ok")] = None
  /\ sample_evaluate (sample_record 1) tt [response] = (inr verdict, [])
  /\ verdict = [("explanation", JString "ok"); ("score", JInt 0)]
  /\ dict_get "reasoning_quality" verdict = None
  /\ dict_get "explanation" verdict = Some (JString "ok")
  /\ ~ contains response "ok"
  /\ ~ (dict_get "reasoning_quality" verdict = Some (JString "invalid")
        /\ dict_get "score" verdict = Some (JInt 0)
        /\ exists explanation,
             dict_get "explanation" verdict = Some (JString explanation)
             /\ contains response explanation).
Proof.
  intros response verdict.
  split; [vm_compute; reflexivity|]. split; [reflexivity|].
  split; [vm_compute; reflexivity|]. split; [vm_compute; reflexivity|].
  split; [vm_compute; reflexivity|]. split; [vm_compute; reflexivity|].
  split.
  - intros H. apply contains_length in H. vm_compute in H. lia.
  - intros [Hlabel _]. vm_compute in Hlabel. discriminate Hlabel.
Qed.

Lemma label_matching_ignores_case_witness :
  let response := verdict_text "ExCeLLent" "sound" in
  let d := [("reasoning_quality", JString "ExCeLLent"); ("explanation", JString "sound")] in
  Json.loads response = Some (JObject d)
  /\ case_variant "ExCeLLent" "excellent"
  /\ exists verdict,
       sample_evaluate (sample_record 1) tt [response] = (inr verdict, [])
       /\ dict_get "score" verdict = Some (JInt 4)
       /\ dict_get "reasoning_quality" verdict = Some (JString "ExCeLLent").
Proof.
  intros response d.
  assert (Hd : Json.loads response = Some (JObject d)) by (vm_compute; reflexivity).
  assert (Hcv : case_variant "ExCeLLent" "excellent")
    by (simpl; repeat split; reflexivity).
  split; [exact Hd|]. split; [exact Hcv|].
  destruct (label_matching_ignores_case scripted_answer Json.loads ascii_lower
              str_of_sample (sample_record 1) tt [response] sample_prompt response []
              d "ExCeLLent"
              (fun s _ => eq_refl) eq_refl eq_refl Hd eq_refl)
    as (verdict & Hrun & _ & _ & Hlabel & _ & Hfour).
  exists verdict. split; [exact Hrun|]. split; [exact (Hfour Hcv)|exact Hlabel].
Defined.

(** C6 fails as stated: the label of this well-formed response is Excellent
    between two spaces, and the verdict is scored 0, not 4. *)
Lemma padded_label_counterexample :
  let response := verdict_text " Excellent " "sound" in
  let verdict := sample_interpret response in
  Json.loads response
  = Some (JObject [("reasoning_quality", JString " Excellent ");
                   ("explanation", JString "sound")])
  /\ sample_evaluate (sample_record 1) tt [response] = (inr verdict, [])
  /\ dict_get "score" verdict = Some (JInt 0)
  /\ dict_get "score" verdict <> Some (JInt 4).
Proof.
  intros response verdict.
  split; [vm_compute; reflexivity|]. split; [vm_compute; reflexivity|].
  split; [vm_compute; reflexivity|].
  intros H. vm_compute in H. discriminate H.
Qed.

Lemma empty_batch_raises_witness :
  sample_process (sample_document []) tt five_responses
  = (inl ZeroDivisionError, five_responses).
Proof.
  exact (proj1 (empty_batch_raises scripted_answer Json.loads ascii_lower
                  str_of_sample
                  [("model", JString "llama70"); ("results", JArray []);
                   ("accuracy", JInt 1)]
                  tt five_responses eq_refl)).
Defined.

Lemma output_is_input_plus_evaluations_witness :
  let run := sample_process_counted (sample_document twelve_records) tt
               (twelve_responses, O) in
  run = (inr (output_of run), (drop 10 twelve_responses, 10%nat))
  /\ sample_process (sample_document twelve_records) tt twelve_responses
     = (inr (output_of run), drop 10 twelve_responses)
  /\ remaining_records (output_of run) = [sample_record 11; sample_record 12]
  /\ map record_verdict (processed_records (output_of run))
     = map sample_interpret (take 10 twelve_responses).
Proof.
  intros run.
  assert (Hrun : run = (inr (output_of run), (drop 10 twelve_responses, 10%nat)))
    by (vm_compute; reflexivity).
  split; [exact Hrun|].
  destruct (output_is_input_plus_evaluations scripted_answer Json.loads ascii_lower
              str_of_sample _ _ _ _ _ _ _ Hrun) as (Hplain & _ & Hout).
  split; [exact Hplain|].
  split; vm_compute; reflexivity.
Defined.

Lemma average_is_mean_of_collected_scores_witness :
  let run := sample_process (sample_document five_records) tt five_responses in
  run = (inr (output_of run), [])
  /\ map record_score (processed_records (output_of run))
     = map Some [4; 3; 2; 1; 0]
  /\ getitem (output_of run) "reasoning_average_score" = inr (JFloat (float_of_Z 2)).
Proof.
  intros run.
  assert (Hrun : run = (inr (output_of run), [])) by (vm_compute; reflexivity).
  split; [exact Hrun|].
  destruct (average_is_mean_of_collected_scores scripted_answer Json.loads
              ascii_lower str_of_sample _ _ _ _ _ Hrun)
    as (d' & scores & avg & Hout & Hscores & _ & Havg & _ & _ & Htwo).
  assert (Hs : scores = [4; 3; 2; 1; 0]).
  { rewrite Hout in Hscores. vm_compute in Hscores.
    vm_compute in Hout. injection Hout as <-. vm_compute in Hscores.
    clear - Hscores.
    repeat (destruct scores as [|? scores]; [discriminate Hscores|];
            injection Hscores as <- Hscores).
    destruct scores; [reflexivity|discriminate Hscores]. }
  split; [vm_compute; reflexivity|].
  rewrite Hout. simpl. rewrite Havg, (Htwo Hs). reflexivity.
Defined.


(** * Further properties *)

(** ** Requests and the exceptions of a call *)

Section Requests.

Context {World Config : Type}.
Variable generate_answer : string -> Config -> World -> (exn + string) * World.
Variable json_loads : string -> option json.
Variable str_lower : string -> string.
Variable str_of : json -> string.

Local Abbreviation evaluate :=
  (evaluate_reasoning_with_model generate_answer json_loads str_lower str_of).
Local Abbreviation interpret := (interpret_response json_loads str_lower).
Local Abbreviation parse := (parse_response json_loads str_lower).

(** The request is built exactly when no field is missing. *)
Lemma eval_question_error item :
  match request_error item with
  | Some e => eval_question str_of item = inl e
  | None => exists prompt, eval_question str_of item = inr prompt
  end.
Proof.
  destruct item as [| | | | | |d]; simpl; try done.
  unfold eval_question, getitem, lacks.
  destruct (dict_get "question" d); simpl; [|done].
  destruct (dict_get "reference_answer" d); simpl; [|done].
  destruct (dict_get "model_answer" d); simpl; [|done].
  by eexists.
Qed.

Lemma request_error_None item prompt :
  eval_question str_of item = inr prompt -> request_error item = None.
Proof.
  intros Hq. pose proof (eval_question_error item) as H.
  destruct (request_error item); [congruence|done].
Qed.

(** X1: a record that is not a dict makes the call raise TypeError, and a
    dict that lacks one of question, reference_answer and model_answer makes
    it raise KeyError on the first of them that is missing, in that order.
    In both cases the grader is not called. *)
Theorem bad_record_raises_before_the_call item config w e :
  request_error item = Some e ->
  eval_question str_of item = inl e
  /\ evaluate item config w = (inl e, w)
  /\ ((forall d, item <> JObject d) -> e = TypeError)
  /\ (forall d, item = JObject d ->
       exists k, e = KeyError k
         /\ dict_get k d = None
         /\ exists before after,
              required_fields = before ++ k :: after
              /\ Forall (fun k' => is_Some (dict_get k' d)) before).
Proof.
  intros He. pose proof (eval_question_error item) as Hq. rewrite He in Hq.
  split; [done|]. split.
  { unfold evaluate_reasoning_with_model, bind, lift. by rewrite Hq. }
  split.
  { intros Hnd. destruct item; simpl in He; try congruence; by edestruct Hnd. }
  intros d ->. simpl in He. unfold lacks in He.
  destruct (dict_get "question" d) as [q|] eqn:E1.
  2:{ injection He as <-. exists "question". split; [done|]. split; [done|].
      by exists [], ["reference_answer"; "model_answer"]. }
  destruct (dict_get "reference_answer" d) as [r|] eqn:E2.
  2:{ injection He as <-. exists "reference_answer". split; [done|].
      split; [done|]. exists ["question"], ["model_answer"].
      split; [done|]. repeat constructor. by rewrite E1. }
  destruct (dict_get "model_answer" d) as [m|] eqn:E3; [done|].
  injection He as <-. exists "model_answer". split; [done|]. split; [done|].
  exists ["question"; "reference_answer"], []. split; [done|].
  repeat constructor; [by rewrite E1|by rewrite E2].
Qed.

(** X2: the only exceptions that leave the call are the one of building the
    request and the one of the grader, which passes through unchanged:
    decoding the response and scoring it never raise. *)
Theorem call_raises_only_for_request_or_grader item config w e w' :
  evaluate item config w = (inl e, w') ->
  (request_error item = Some e /\ w' = w)
  \/ (exists prompt,
        eval_question str_of item = inr prompt
        /\ generate_answer prompt config w = (inl e, w')).
Proof.
  unfold evaluate_reasoning_with_model, bind, lift, ret.
  pose proof (eval_question_error item) as Hq.
  destruct (request_error item) as [e0|].
  - rewrite Hq. intros [= <- <-]. by left.
  - destruct Hq as [prompt Hq]. rewrite Hq.
    destruct (generate_answer prompt config w) as [[e1|response] w1] eqn:Hg;
      [|done].
    intros [= <- <-]. right. by exists prompt.
Qed.

(** X3: the call reads the three required fields of the record and nothing
    else: two records that agree on them get the same request, and the call
    does the same on both. *)
Theorem only_required_fields_are_read d d' config w :
  (forall k, k ∈ required_fields -> dict_get k d = dict_get k d') ->
  eval_question str_of (JObject d) = eval_question str_of (JObject d')
  /\ evaluate (JObject d) config w = evaluate (JObject d') config w.
Proof.
  intros Hsame.
  assert (Hq : eval_question str_of (JObject d) = eval_question str_of (JObject d')).
  { unfold eval_question, getitem.
    rewrite <- !Hsame; [done|unfold required_fields..].
    - apply list_elem_of_further, list_elem_of_further, list_elem_of_here.
    - apply list_elem_of_further, list_elem_of_here.
    - apply list_elem_of_here. }
  split; [done|]. unfold evaluate_reasoning_with_model. by rewrite Hq.
Qed.

(** X4: a score above 0 is given only to a response that decodes to an object
    whose label is a string that, once lowered, is a key of the table, and
    the score is then the one of that key. *)
Theorem positive_score_needs_known_label response n :
  str_lower "invalid" = "invalid" ->
  0 < n ->
  dict_get "score" (interpret response) = Some (JInt n)
  <-> exists d label,
        json_loads response = Some (JObject d)
        /\ dict_get "reasoning_quality" d = Some (JString label)
        /\ REASONING_SCORE_MAP !! str_lower label = Some n.
Proof.
  intros Hlow Hn. rewrite interpret_score. split.
  - intros [= Hs]. unfold parse_response in Hs.
    destruct (json_loads response) as [[| | | | | |d]|] eqn:Hd;
      try (simpl in Hs; vm_compute in Hs; lia).
    destruct (dict_get "reasoning_quality" d) as [[| | | |label| |]|] eqn:Hl;
      try (simpl in Hs; vm_compute in Hs; lia).
    + exists d, label. split; [done|]. split; [done|].
      simpl in Hs. unfold score_of in Hs.
      destruct (REASONING_SCORE_MAP !! str_lower label) as [z|]; simpl in Hs;
        [by subst|lia].
    + simpl in Hs. rewrite Hlow in Hs. vm_compute in Hs. lia.
  - intros (d & label & Hd & Hl & Hs).
    rewrite (parse_labelled _ _ _ _ _ Hd Hl). simpl.
    unfold score_of. by rewrite Hs.
Qed.

(** X5: when the response decodes to an object whose label is a string or is
    missing, the verdict keeps every field of the object, in order; only the
    field score is written: over the one that the grader supplied, if any,
    and at the end otherwise. *)
Theorem verdict_keeps_decoded_fields response d :
  json_loads response = Some (JObject d) ->
  (dict_get "reasoning_quality" d = None
   \/ exists label, dict_get "reasoning_quality" d = Some (JString label)) ->
  other_fields ["score"] (interpret response) = other_fields ["score"] d
  /\ dict_keys (interpret response) = keys_with "score" (dict_keys d)
  /\ (forall k, k <> "score" -> dict_get k (interpret response) = dict_get k d)
  /\ exists n, dict_get "score" (interpret response) = Some (JInt n).
Proof.
  intros Hd Hl.
  assert (Hp : fst (parse response) = d).
  { destruct Hl as [Hl|[label Hl]].
    - by rewrite (parse_unlabelled _ _ _ _ Hd Hl).
    - by rewrite (parse_labelled _ _ _ _ _ Hd Hl). }
  rewrite interpret_unfold, Hp. split.
  { apply dict_set_other_fields, list_elem_of_here. }
  split.
  { unfold keys_with. case_bool_decide as Hin.
    - by apply dict_keys_set_in.
    - by apply dict_keys_set_notin. }
  split.
  { intros k Hk. by apply dict_get_set_ne. }
  eexists. apply dict_get_set_eq.
Qed.

End Requests.

(** ** Runs of the batch driver *)

Lemma dict_get_Some_key k v d : dict_get k d = Some v -> k ∈ dict_keys d.
Proof.
  induction d as [|[k0 v0] d IH]; simpl; [done|].
  destruct (String.eqb_spec k0 k) as [->|_].
  - intros _. apply list_elem_of_here.
  - intros H. apply list_elem_of_further. by apply IH.
Qed.

Lemma dict_keys_set k v d :
  dict_keys (dict_set k v d) = keys_with k (dict_keys d).
Proof.
  unfold keys_with. case_bool_decide as Hin.
  - by apply dict_keys_set_in.
  - by apply dict_keys_set_notin.
Qed.

Lemma dict_get_wf k v d :
  json_wf (JObject d) -> dict_get k d = Some v -> json_wf v.
Proof.
  rewrite json_wf_object. intros [_ Hall].
  induction Hall as [|[k0 v0] d Hx _ IH]; simpl; [done|].
  destruct (String.eqb k0 k); [by intros [= <-]|done].
Qed.

Lemma code_points_nonempty c s : code_points (String c s) <> [].
Proof.
  simpl. destruct (starts_with_continuation s); [|done].
  by destruct (code_points s).
Qed.

Lemma attach_verdict_twice item verdict :
  attach_verdict (attach_verdict item verdict) verdict = attach_verdict item verdict.
Proof. destruct item; simpl; try done. by rewrite dict_set_set. Qed.

Lemma mean_range_checked : mean_range_ok = true.
Proof. vm_compute. reflexivity. Qed.

(** The mean of up to ten scores from 0 to 4 is a float from 0.0 to 4.0. *)
Lemma mean_score_in_range (scores : list Z) avg :
  (length scores <= 10)%nat ->
  Forall (fun z => 0 <= z <= 4) scores ->
  mean_score scores = inr avg ->
  is_between_0_and_4 avg = true.
Proof.
  intros Hlen Hall Havg.
  assert (Hne : scores <> []) by (by intros ->).
  pose proof (sum_Z_bounds scores 4 Hall) as Hsum.
  assert (Hcount : 1 <= Z.of_nat (length scores) <= 10)
    by (destruct scores; [done|simpl in *; lia]).
  pose proof mean_range_checked as Hok. unfold mean_range_ok in Hok.
  rewrite forallb_forall in Hok.
  assert (Hin1 : In (Z.of_nat (length scores)) (seqZ 1 10))
    by (apply list_elem_of_In, elem_of_seqZ; lia).
  specialize (Hok _ Hin1). rewrite forallb_forall in Hok.
  assert (Hin2 : In (sum_Z scores) (seqZ 0 (4 * Z.of_nat (length scores) + 1)))
    by (apply list_elem_of_In, elem_of_seqZ; lia).
  specialize (Hok _ Hin2). unfold mean_score in Havg. by rewrite Havg in Hok.
Qed.

Section Runs.

Context {World Config : Type}.
Variable generate_answer : string -> Config -> World -> (exn + string) * World.
Variable json_loads : string -> option json.
Variable str_lower : string -> string.
Variable str_of : json -> string.

Local Abbreviation evaluate :=
  (evaluate_reasoning_with_model generate_answer json_loads str_lower str_of).
Local Abbreviation interpret := (interpret_response json_loads str_lower).
Local Abbreviation parse := (parse_response json_loads str_lower).
Local Abbreviation loop :=
  (evaluate_items generate_answer json_loads str_lower str_of).
Local Abbreviation process :=
  (process_json_file generate_answer json_loads str_lower str_of).
Local Abbreviation calls := (grader_calls generate_answer str_of).
Local Abbreviation response_score := (fun r => score_of (snd (parse r))).

(** The loop on a list of items is the loop on its head followed by the loop
    on its tail. *)
Lemma evaluate_items_app xs ys data scores config w :
  loop (xs ++ ys) data scores config w
  = match loop xs data scores config w with
    | (inr done, w') => loop ys (fst done) (snd done) config w'
    | (inl e, w') => (inl e, w')
    end.
Proof.
  revert data scores w. induction xs as [|x xs IH]; intros data scores w; [done|].
  simpl. unfold bind, lift.
  destruct (evaluate (deref data x) config w) as [[e|verdict] w1]; [done|].
  destruct (assign data x "reasoning_evaluation" (JObject verdict)) as [e|data1];
    [done|].
  destruct (dict_get "score" verdict) as [score|]; [|done].
  apply IH.
Qed.

(** X6: a run needs a list under results. When the document is not a dict,
    has no field results, or holds under it anything but a list, the run
    raises before any call to the grader: TypeError for a document that is
    not a dict and for results that are null, a boolean, a number or a
    non-empty string, KeyError for a missing field, and ZeroDivisionError
    for results that are the empty string. *)
Theorem run_needs_a_list_of_results data config w :
  results_list data = None ->
  exists e,
    process data config w = (inl e, w)
    /\ ((forall d, data <> JObject d) -> e = TypeError)
    /\ (forall d, data = JObject d -> dict_get "results" d = None ->
        e = KeyError "results")
    /\ (forall d, data = JObject d ->
        dict_get "results" d = Some (JString EmptyString) ->
        e = ZeroDivisionError)
    /\ (forall d r, data = JObject d -> dict_get "results" d = Some r ->
        (forall f, r <> JObject f) -> r <> JString EmptyString ->
        e = TypeError).
Proof.
  intros Hnone. unfold process_json_file, bind, lift.
  destruct data as [| | | | | |d]; simpl;
    try (eexists; split; [reflexivity|naive_solver]).
  simpl in Hnone.
  destruct (dict_get "results" d) as [r|] eqn:Hr;
    [|eexists; split; [reflexivity|naive_solver]].
  destruct r as [| | | |s|l|f]; simpl; try done;
    try (eexists; split; [reflexivity|naive_solver]).
  rewrite evaluate_items_strings.
  destruct s as [|c s]; [eexists; split; [reflexivity|naive_solver]|].
  pose proof (code_points_nonempty c s) as Hne.
  destruct (code_points (String c s)) as [|p ps]; [done|]. simpl.
  eexists; split; [reflexivity|naive_solver].
Qed.

(** X7: the run has no retry and skips nothing. When one of the first ten
    records cannot be evaluated, because its request cannot be built or the
    grader raises, after the records before it were answered, the run raises
    that exception and produces no output document; the verdicts of the
    earlier records are lost with it. *)
Theorem first_failure_aborts_the_run
    d results pre item post responses config w w1 e w2 :
  dict_get "results" d = Some (JArray results) ->
  take 10 results = pre ++ item :: post ->
  calls config pre w responses w1 ->
  evaluate item config w1 = (inl e, w2) ->
  process (JObject d) config w = (inl e, w2).
Proof.
  intros Hres Htake Hcalls Hfail.
  assert (Hlen : length (take 10 results) = (length pre + S (length post))%nat)
    by (rewrite Htake, length_app; simpl; lia).
  assert (Hle : (length pre < 10)%nat)
    by (rewrite length_take in Hlen; lia).
  assert (Hpre : take (length pre) results = pre).
  { pose proof (take_app_length pre (item :: post)) as H.
    rewrite <- Htake, take_take, Nat.min_l in H by lia. done. }
  assert (Hitem : results !! length pre = Some item).
  { rewrite <- (lookup_take_lt results 10) by lia.
    rewrite Htake. apply list_lookup_middle. done. }
  unfold process_json_file, bind, lift. simpl. rewrite Hres. simpl.
  rewrite Hlen, seq_app, map_app, evaluate_items_app.
  rewrite (evaluate_items_answered _ _ _ _ _ 0 d results [] config w responses w1);
    [|done|simpl; rewrite length_take in Hlen; lia|by rewrite drop_0, Hpre].
  simpl. unfold bind. unfold results_of. rewrite dict_get_set_eq.
  rewrite drop_0, Hpre.
  rewrite lookup_app_r
    by (rewrite (attached_length _ json_loads str_lower _ _ _ _ _ _ Hcalls); lia).
  rewrite (attached_length _ json_loads str_lower _ _ _ _ _ _ Hcalls), Nat.sub_diag.
  rewrite lookup_drop, Nat.add_0_r, Hitem. simpl. by rewrite Hfail.
Qed.

(** X8: lines 85 to 99, from the loaded document to the document that is
    handed to [json.dump]. They end without an exception, and give the
    scored document, whenever the loaded document is a dict whose results
    are a non-empty list and the grader answers the requests of the first
    ten records. For this part nothing is asked of the records after the
    tenth, which need not even be dicts, nor of the other fields of the
    document. The statement stops before the output file is opened: the
    write of lines 103 and 104 is not part of it, and it can still raise. *)
Theorem run_ends_when_first_ten_are_answered
    d results config w responses w' :
  dict_get "results" d = Some (JArray results) ->
  results <> [] ->
  calls config (take 10 results) w responses w' ->
  exists out avg,
    process (JObject d) config w = (inr out, w')
    /\ mean_score (map response_score responses) = inr avg
    /\ out = JObject
               (dict_set "reasoning_average_score" (JFloat avg)
                  (dict_set "results"
                     (JArray (zip_with attach_verdict (take 10 results)
                                (map interpret responses)
                              ++ drop 10 results)) d)).
Proof.
  intros Hres Hne Hcalls.
  destruct (process_answered _ json_loads str_lower _ _ _ _ _ _ _ Hres Hne Hcalls)
    as (avg & Havg & Hrun).
  by eexists _, avg.
Qed.

(** X9: the output keeps the layout of the input. The document has the keys
    of the input in their order, with reasoning_average_score at the end
    unless the input had it; the list of results has as many records as
    before; and each processed record has its keys in their order, with
    reasoning_evaluation at the end unless the record had it, in which case
    the old value is replaced where it stood. *)
Theorem output_keeps_the_layout data config w out w' :
  process data config w = (inr out, w') ->
  exists d d' results results',
    data = JObject d /\ out = JObject d'
    /\ dict_get "results" d = Some (JArray results)
    /\ dict_get "results" d' = Some (JArray results')
    /\ dict_keys d' = keys_with "reasoning_average_score" (dict_keys d)
    /\ length results' = length results
    /\ Forall2 (fun item item' =>
                  exists f f', item = JObject f /\ item' = JObject f'
                    /\ dict_keys f' = keys_with "reasoning_evaluation" (dict_keys f))
         (take 10 results) (take 10 results').
Proof.
  intros Hrun.
  apply process_returned in Hrun
    as (d & results & responses & avg & -> & Hres & Hcalls & Havg & ->).
  pose proof (attached_length _ json_loads str_lower _ _ _ _ _ _ Hcalls) as Hatt.
  destruct (take_processed results _ Hatt) as [Htake _].
  eexists d, _, results, _. split; [done|]. split; [reflexivity|].
  split; [done|]. split; [by rewrite dict_get_set_ne, dict_get_set_eq|].
  split.
  { rewrite dict_keys_set. f_equal. apply dict_keys_set_in.
    by eapply dict_get_Some_key. }
  split.
  { rewrite length_app, Hatt, <- length_app, take_drop. done. }
  rewrite Htake. clear Htake Hatt Havg.
  induction Hcalls as [|item items w0 prompt response w1 responses w2 Hq Hg _ IH];
    simpl; constructor; [|done].
  destruct (eval_question_dict _ _ _ Hq) as [fields ->].
  eexists fields, _. split; [done|]. split; [reflexivity|].
  apply dict_keys_set.
Qed.

(** The verdict of a response is well formed when the decoder builds well
    formed values. *)
Lemma interpret_wf response :
  (forall s v, json_loads s = Some v -> json_wf v) ->
  json_wf (JObject (interpret response)).
Proof.
  intros Hwf. rewrite interpret_unfold. apply dict_set_wf; [|done].
  destruct (parse_cases json_loads str_lower response) as [(d & Hd & ->)| ->].
  - by apply (Hwf response).
  - apply json_wf_object. split; [|by repeat constructor].
    apply (bool_decide_unpack (NoDup _)). vm_compute. reflexivity.
Qed.

(** X10: the run keeps documents well formed. When the decoder builds dicts
    with distinct keys and the input document has distinct keys in every
    dict, so has the output document, verdicts included. *)
Theorem output_is_well_formed data config w out w' :
  (forall s v, json_loads s = Some v -> json_wf v) ->
  json_wf data ->
  process data config w = (inr out, w') ->
  json_wf out.
Proof.
  intros Hwf Hdata Hrun.
  apply process_returned in Hrun
    as (d & results & responses & avg & -> & Hres & Hcalls & Havg & ->).
  pose proof (dict_get_wf _ _ _ Hdata Hres) as Hresults.
  apply json_wf_array in Hresults.
  apply dict_set_wf; [|done]. apply dict_set_wf; [done|].
  apply json_wf_array, Forall_app. split; [|by apply Forall_drop].
  apply Forall_take with (n := 10%nat) in Hresults.
  clear Havg Hres.
  induction Hcalls as [|item items w0 prompt response w1 responses w2 Hq Hg _ IH];
    simpl; [constructor|].
  apply Forall_cons in Hresults as [Hitem Hitems].
  constructor; [|by apply IH].
  destruct (eval_question_dict _ _ _ Hq) as [fields ->]. simpl.
  apply dict_set_wf; [done|]. by apply interpret_wf.
Qed.

(** X11: the mean that a run stores is a finite float from 0.0 to 4.0: it is
    never an infinity or a NaN and never leaves the range of the scores. *)
Theorem average_is_between_0_and_4 data config w out w' :
  process data config w = (inr out, w') ->
  exists avg,
    getitem out "reasoning_average_score" = inr (JFloat avg)
    /\ is_between_0_and_4 avg = true.
Proof.
  intros Hrun.
  apply process_returned in Hrun
    as (d & results & responses & avg & -> & Hres & Hcalls & Havg & ->).
  exists avg. split; [simpl; by rewrite dict_get_set_eq|].
  apply (mean_score_in_range (map response_score responses)); [| |done].
  - rewrite length_map, (grader_calls_length _ _ _ _ _ _ _ Hcalls), length_take.
    lia.
  - apply response_scores_range.
Qed.

(** X12: a second run on the output of a run, in which the grader gives the
    same answers, changes nothing: the verdicts and the mean are written
    over themselves, and the output is the same document. *)
Theorem second_run_with_same_answers_changes_nothing
    data config w out w1 responses w2 :
  process data config w = (inr out, w1) ->
  calls config (take 10 (results_of data)) w responses w1 ->
  calls config (processed_records out) w1 responses w2 ->
  process out config w1 = (inr out, w2).
Proof.
  intros Hrun Hfirst Hsecond.
  apply process_returned in Hrun
    as (d & results & responses0 & avg & -> & Hres & Hcalls & Havg & ->).
  unfold results_of in Hfirst. rewrite Hres in Hfirst.
  assert (responses0 = responses) as ->.
  { clear - Hcalls Hfirst. revert responses Hfirst.
    induction Hcalls as [|item items w0 prompt response w1' rs w2' Hq Hg _ IH];
      intros responses Hfirst; inversion Hfirst; subst; [done|].
    assert (prompt0 = prompt) as -> by congruence.
    assert (response0 = response /\ w' = w1') as [-> ->]
      by (split; congruence).
    f_equal. by apply IH. }
  pose proof (attached_length _ json_loads str_lower _ _ _ _ _ _ Hcalls) as Hatt.
  destruct (take_processed results _ Hatt) as [Htake Hdrop].
  set (results' := zip_with attach_verdict (take 10 results)
                     (map interpret responses) ++ drop 10 results) in *.
  set (d' := dict_set "reasoning_average_score" (JFloat avg)
               (dict_set "results" (JArray results') d)) in *.
  assert (Hres' : dict_get "results" d' = Some (JArray results'))
    by (unfold d'; by rewrite dict_get_set_ne, dict_get_set_eq).
  unfold processed_records in Hsecond. rewrite Hres' in Hsecond.
  assert (Hne : results' <> []).
  { intros E. rewrite E in Htake. simpl in Htake.
    assert (responses = []) as ->.
    { apply grader_calls_length in Hcalls. symmetry in Htake.
      apply (f_equal length) in Htake. rewrite Hatt in Htake.
      destruct responses; [done|simpl in *; lia]. }
    done. }
  destruct (process_answered _ json_loads str_lower _ _ _ _ _ _ _ Hres' Hne Hsecond)
    as (avg' & Havg' & ->).
  assert (avg' = avg) as -> by congruence.
  do 3 f_equal. rewrite Htake, Hdrop.
  assert (Hsame : zip_with attach_verdict
                    (zip_with attach_verdict (take 10 results)
                       (map interpret responses))
                    (map interpret responses)
                  = zip_with attach_verdict (take 10 results)
                      (map interpret responses)).
  { generalize (take 10 results) (map interpret responses).
    induction l as [|x l IH]; intros [|v vs]; simpl; try done.
    by rewrite attach_verdict_twice, IH. }
  rewrite Hsame. fold results'.
  rewrite (dict_set_same "results" (JArray results') d' Hres').
  apply dict_set_same. unfold d'. apply dict_get_set_eq.
Qed.

End Runs.

(** ** The further properties on the scripted grader *)

Lemma bad_record_raises_before_the_call_witness :
  request_error incomplete_record = Some (KeyError "reference_answer")
  /\ sample_evaluate incomplete_record tt five_responses
     = (inl (KeyError "reference_answer"), five_responses).
Proof.
  split; [reflexivity|].
  exact (proj1 (proj2 (bad_record_raises_before_the_call scripted_answer
                         Json.loads ascii_lower str_of_sample incomplete_record
                         tt five_responses (KeyError "reference_answer")
                         eq_refl))).
Defined.

Lemma call_raises_only_for_request_or_grader_witness :
  sample_evaluate (sample_record 1) tt []
  = (inl (GraderError "the script is over"), [])
  /\ scripted_answer sample_prompt tt []
     = (inl (GraderError "the script is over"), []).
Proof.
  assert (Hrun : sample_evaluate (sample_record 1) tt []
                 = (inl (GraderError "the script is over"), []))
    by reflexivity.
  split; [exact Hrun|].
  destruct (call_raises_only_for_request_or_grader scripted_answer Json.loads
              ascii_lower str_of_sample _ _ _ _ _ Hrun)
    as [[Herr _]|(prompt & Hq & Hg)].
  - discriminate Herr.
  - injection Hq as <-. exact Hg.
Defined.

Lemma only_required_fields_are_read_witness :
  sample_evaluate (sample_record 1) tt five_responses
  = sample_evaluate (sample_record 2) tt five_responses.
Proof.
  refine (proj2 (only_required_fields_are_read scripted_answer Json.loads
                   ascii_lower str_of_sample _ _ tt five_responses _)).
  intros k Hk. unfold required_fields in Hk.
  apply elem_of_cons in Hk as [->|Hk]; [reflexivity|].
  apply elem_of_cons in Hk as [->|Hk]; [reflexivity|].
  apply elem_of_cons in Hk as [->|Hk]; [reflexivity|].
  by apply elem_of_nil in Hk.
Defined.

Lemma positive_score_needs_known_label_witness :
  REASONING_SCORE_MAP !! ascii_lower "Good" = Some 3
  /\ dict_get "score" (sample_interpret (verdict_text "Good" "mostly sound"))
     = Some (JInt 3).
Proof.
  split; [vm_compute; reflexivity|].
  apply (proj2 (positive_score_needs_known_label Json.loads ascii_lower
                  (verdict_text "Good" "mostly sound") 3 eq_refl eq_refl)).
  exists [("reasoning_quality", JString "Good");
          ("explanation", JString "mostly sound")], "Good".
  split; [vm_compute; reflexivity|]. split; vm_compute; reflexivity.
Defined.

Lemma verdict_keeps_decoded_fields_witness :
  Json.loads scored_text
  = Some (JObject [("score", JInt 99); ("reasoning_quality", JString "weak")])
  /\ dict_keys (sample_interpret scored_text) = ["score"; "reasoning_quality"]
  /\ sample_interpret scored_text
     = [("score", JInt 2); ("reasoning_quality", JString "weak")].
Proof.
  assert (Hd : Json.loads scored_text
               = Some (JObject [("score", JInt 99);
                                ("reasoning_quality", JString "weak")]))
    by (vm_compute; reflexivity).
  split; [exact Hd|].
  destruct (verdict_keeps_decoded_fields Json.loads ascii_lower scored_text _ Hd)
    as (_ & Hkeys & _).
  { right. by exists "weak". }
  split; [exact Hkeys|vm_compute; reflexivity].
Defined.

Lemma run_needs_a_list_of_results_witness :
  results_list (JObject [("model", JString "llama70")]) = None
  /\ sample_process (JObject [("model", JString "llama70")]) tt five_responses
     = (inl (KeyError "results"), five_responses).
Proof.
  split; [reflexivity|].
  destruct (run_needs_a_list_of_results scripted_answer Json.loads ascii_lower
              str_of_sample (JObject [("model", JString "llama70")]) tt
              five_responses eq_refl)
    as (e & Hrun & _ & Hkey & _).
  rewrite (Hkey _ eq_refl eq_refl) in Hrun. exact Hrun.
Defined.

Lemma first_failure_aborts_the_run_witness :
  sample_evaluate incomplete_record tt (drop 2 five_responses)
  = (inl (KeyError "reference_answer"), drop 2 five_responses)
  /\ sample_process (sample_document records_with_a_gap) tt five_responses
     = (inl (KeyError "reference_answer"), drop 2 five_responses).
Proof.
  assert (Hfail : sample_evaluate incomplete_record tt (drop 2 five_responses)
                  = (inl (KeyError "reference_answer"), drop 2 five_responses))
    by reflexivity.
  split; [exact Hfail|].
  apply (first_failure_aborts_the_run scripted_answer Json.loads ascii_lower
           str_of_sample _ records_with_a_gap
           [sample_record 1; sample_record 2] incomplete_record
           [sample_record 4] (take 2 five_responses) tt five_responses
           (drop 2 five_responses)); [reflexivity|reflexivity| |exact Hfail].
  repeat (econstructor; [reflexivity|reflexivity|]). constructor.
Defined.

Lemma run_ends_when_first_ten_are_answered_witness :
  exists out,
    sample_process (sample_document records_with_a_tail) tt twelve_responses
    = (inr out, drop 10 twelve_responses)
    /\ remaining_records out = [JNull; JInt 3].
Proof.
  destruct (run_ends_when_first_ten_are_answered scripted_answer Json.loads
              ascii_lower str_of_sample
              [("model", JString "llama70");
               ("results", JArray records_with_a_tail); ("accuracy", JInt 1)]
              records_with_a_tail tt twelve_responses
              (take 10 twelve_responses) (drop 10 twelve_responses))
    as (out & avg & Hrun & _ & Hout).
  - reflexivity.
  - discriminate.
  - repeat (econstructor; [reflexivity|reflexivity|]). constructor.
  - exists out. split; [exact Hrun|].
    rewrite Hout. vm_compute. reflexivity.
Defined.

Lemma output_keeps_the_layout_witness :
  let run := sample_process (sample_document five_records) tt five_responses in
  run = (inr (output_of run), [])
  /\ exists d', output_of run = JObject d'
       /\ dict_keys d' = ["model"; "results"; "accuracy"; "reasoning_average_score"]
       /\ length (results_of (output_of run)) = 5%nat.
Proof.
  intros run.
  assert (Hrun : run = (inr (output_of run), [])) by (vm_compute; reflexivity).
  split; [exact Hrun|].
  destruct (output_keeps_the_layout scripted_answer Json.loads ascii_lower
              str_of_sample _ _ _ _ _ Hrun)
    as (d & d' & results & results' & Hd & Hd' & _).
  exists d'. split; [exact Hd'|].
  vm_compute in Hd'. injection Hd' as <-. split; vm_compute; reflexivity.
Defined.

Lemma output_is_well_formed_witness :
  let run := sample_process (sample_document five_records) tt five_responses in
  json_wf (sample_document five_records)
  /\ run = (inr (output_of run), [])
  /\ json_wf (output_of run).
Proof.
  intros run.
  assert (Hdata : json_wf (sample_document five_records)).
  { simpl. repeat split;
      apply (bool_decide_unpack (NoDup _)); vm_compute; reflexivity. }
  assert (Hrun : run = (inr (output_of run), [])) by (vm_compute; reflexivity).
  split; [exact Hdata|]. split; [exact Hrun|].
  exact (output_is_well_formed scripted_answer Json.loads ascii_lower
           str_of_sample _ _ _ _ _ loads_wf Hdata Hrun).
Defined.

Lemma average_is_between_0_and_4_witness :
  let run := sample_process (sample_document five_records) tt five_responses in
  run = (inr (output_of run), [])
  /\ exists avg,
       getitem (output_of run) "reasoning_average_score" = inr (JFloat avg)
       /\ is_between_0_and_4 avg = true.
Proof.
  intros run.
  assert (Hrun : run = (inr (output_of run), [])) by (vm_compute; reflexivity).
  split; [exact Hrun|].
  exact (average_is_between_0_and_4 scripted_answer Json.loads ascii_lower
           str_of_sample _ _ _ _ _ Hrun).
Defined.

Lemma second_run_with_same_answers_changes_nothing_witness :
  let script := five_responses ++ five_responses in
  let run := sample_process (sample_document five_records) tt script in
  run = (inr (output_of run), five_responses)
  /\ sample_process (output_of run) tt five_responses = (inr (output_of run), []).
Proof.
  intros script run.
  assert (Hrun : run = (inr (output_of run), five_responses))
    by (vm_compute; reflexivity).
  split; [exact Hrun|].
  apply (second_run_with_same_answers_changes_nothing scripted_answer Json.loads
           ascii_lower str_of_sample _ tt script _ five_responses five_responses []
           Hrun).
  - repeat (econstructor; [reflexivity|reflexivity|]). constructor.
  - repeat (econstructor; [reflexivity|reflexivity|]). constructor.
Defined.

(** ** The run with its files *)

Section LoggedRun.

Context {World Config : Type}.
Variable read_text : string -> World -> (string + string) * World.
Variable write_json : string -> json -> World -> (string + unit) * World.
Variable generate_answer : string -> Config -> World -> (exn + string) * World.
Variable json_loads : string -> option json.
Variable str_lower : string -> string.
Variable str_of : json -> string.

Local Abbreviation process :=
  (process_json_file generate_answer json_loads str_lower str_of).
Local Abbreviation ask_l := (logged_ask generate_answer).
Local Abbreviation evaluate_l :=
  (evaluate_reasoning_with_model ask_l json_loads str_lower str_of).
Local Abbreviation loop_l := (evaluate_items ask_l json_loads str_lower str_of).
Local Abbreviation process_l :=
  (process_json_file ask_l json_loads str_lower str_of).
Local Abbreviation run :=
  (process_json_file_io read_text write_json generate_answer json_loads
     str_lower str_of).
Local Abbreviation run_l :=
  (process_json_file_io (logged_read read_text) (logged_write write_json)
     ask_l json_loads str_lower str_of).

(** The log is a witness only: it does not change what a computation does. *)
Lemma asks_at_most_lift {A : Type} (config : Config) (r : exn + A) :
  asks_at_most (World:=World) 0 config (lift r) (lift r).
Proof.
  intros w log. exists []. split; [done|]. split; [constructor|].
  unfold lift. simpl. by rewrite app_nil_r.
Qed.

Lemma asks_at_most_ret {A : Type} (config : Config) (a : A) :
  asks_at_most (World:=World) 0 config (ret a) (ret a).
Proof. apply (asks_at_most_lift config (inr a)). Qed.

Lemma asks_at_most_grader prompt config :
  asks_at_most 1 config (ask_l prompt config) (generate_answer prompt config).
Proof.
  intros w log. exists [AskGrader prompt config]. split; [done|].
  split; [repeat constructor; by exists prompt|].
  unfold logged_ask. simpl. by destruct (generate_answer prompt config w).
Qed.

Lemma asks_at_most_bind {A B : Type} k1 k2 (config : Config)
    (c_l : World * list (@event Config)
           -> (exn + A) * (World * list (@event Config)))
    (c : World -> (exn + A) * World)
    (f_l : A -> World * list (@event Config)
           -> (exn + B) * (World * list (@event Config)))
    (f : A -> World -> (exn + B) * World) :
  asks_at_most k1 config c_l c ->
  (forall a, asks_at_most k2 config (f_l a) (f a)) ->
  asks_at_most (k1 + k2) config (bind c_l f_l) (bind c f).
Proof.
  intros Hc Hf w log. unfold bind.
  destruct (Hc w log) as (evs1 & Hlen1 & Hall1 & ->).
  destruct (c w) as [[e|a] w1]; simpl.
  - exists evs1. split; [lia|done].
  - destruct (Hf a w1 (log ++ evs1)) as (evs2 & Hlen2 & Hall2 & ->).
    exists (evs1 ++ evs2). rewrite length_app, Forall_app, app_assoc.
    split; [lia|done].
Qed.

Lemma asks_at_most_bind_lift {A B : Type} k (config : Config) (r : exn + A)
    (f_l : A -> World * list (@event Config)
           -> (exn + B) * (World * list (@event Config)))
    (f : A -> World -> (exn + B) * World) :
  (forall a, r = inr a -> asks_at_most k config (f_l a) (f a)) ->
  asks_at_most k config (bind (lift r) f_l) (bind (lift r) f).
Proof.
  intros Hf w log. unfold bind, lift. destruct r as [e|a]; simpl.
  - exists []. rewrite app_nil_r. split; [simpl; lia|]. split; [constructor|done].
  - by apply Hf.
Qed.

Lemma asks_at_most_weaken {A : Type} k k' (config : Config)
    (c_l : World * list (@event Config)
           -> (exn + A) * (World * list (@event Config)))
    (c : World -> (exn + A) * World) :
  (k <= k')%nat -> asks_at_most k config c_l c -> asks_at_most k' config c_l c.
Proof.
  intros Hle Hc w log. destruct (Hc w log) as (evs & Hlen & Hall & ->).
  exists evs. split; [lia|done].
Qed.

(** A call to [evaluate_reasoning_with_model] asks the grader at most once,
    under the configuration it was given. *)
Lemma evaluate_logged item config :
  asks_at_most 1 config (evaluate_l item config)
    (evaluate_reasoning_with_model generate_answer json_loads str_lower str_of
       item config).
Proof.
  unfold evaluate_reasoning_with_model.
  apply (asks_at_most_bind 0 1); [apply asks_at_most_lift|]. intros prompt.
  apply (asks_at_most_bind 1 0); [apply asks_at_most_grader|]. intros response.
  apply asks_at_most_ret.
Qed.

Lemma evaluate_items_logged items data scores config :
  asks_at_most (length items) config (loop_l items data scores config)
    (evaluate_items generate_answer json_loads str_lower str_of
       items data scores config).
Proof.
  revert data scores. induction items as [|item items IH]; intros data scores; simpl.
  - apply asks_at_most_ret.
  - apply (asks_at_most_bind 1 (length items)); [apply evaluate_logged|].
    intros verdict.
    apply (asks_at_most_bind 0 (length items)); [apply asks_at_most_lift|].
    intros data'.
    apply (asks_at_most_bind 0 (length items)); [apply asks_at_most_lift|].
    intros score. apply IH.
Qed.

Lemma process_logged data config :
  asks_at_most 10 config (process_l data config) (process data config).
Proof.
  unfold process_json_file.
  apply (asks_at_most_bind 0 10); [apply asks_at_most_lift|]. intros results.
  apply (asks_at_most_bind 0 10); [apply asks_at_most_lift|]. intros _.
  apply asks_at_most_bind_lift. intros items Hslice.
  apply slice10_length in Hslice.
  apply (asks_at_most_weaken (length items + 0)); [lia|].
  apply asks_at_most_bind; [apply evaluate_items_logged|].
  intros [data' scores].
  apply (asks_at_most_bind 0 0); [apply asks_at_most_lift|]. intros total.
  apply (asks_at_most_bind 0 0); [apply asks_at_most_lift|]. intros avg.
  apply asks_at_most_lift.
Qed.

(** X13. [process_json_file] with its files. Whatever the files, the decoder
    and the grader do, a run reads [input_file] first and once, then asks
    the grader at most ten times and only under the configuration it was
    given, and writes last, at most once and only to [output_file]; it
    writes only when the input was read and decoded and the run on the
    document ended, and what it writes is the document that run returned.
    When nothing is written the run ends in an exception. The log changes
    nothing of what the run does. *)
Theorem output_is_written_last_and_only_after_success
    input_file output_file config w log r w' log' :
  run_l input_file output_file config (w, log) = (r, (w', log')) ->
  run input_file output_file config w = (r, w')
  /\ exists asks writes,
       log' = log ++ ReadFile input_file :: asks ++ writes
       /\ (length asks <= 10)%nat
       /\ Forall (is_ask config) asks
       /\ ((writes = [] /\ exists e, r = inl e)
           \/ (exists text w1 data out w2,
                 read_text input_file w = (inr text, w1)
                 /\ json_loads text = Some data
                 /\ process data config w1 = (inr out, w2)
                 /\ writes = [WriteFile output_file out])).
Proof.
  unfold process_json_file_io, logged_read. simpl.
  destruct (read_text input_file w) as [[msg|text] w1] eqn:Hread.
  { intros [= <- <- <-]. split; [done|]. exists [], []. simpl.
    repeat split; [lia|constructor|]. left. split; [done|by eexists]. }
  destruct (json_loads text) as [data|] eqn:Hdecode.
  2:{ intros [= <- <- <-]. split; [done|]. exists [], []. simpl.
      repeat split; [lia|constructor|]. left. split; [done|by eexists]. }
  destruct (process_logged data config w1 (log ++ [ReadFile input_file]))
    as (asks & Hlen & Hall & ->).
  destruct (process data config w1) as [[e|out] w2] eqn:Hprocess; simpl.
  { intros [= <- <- <-]. split; [done|]. exists asks, [].
    rewrite app_nil_r, <- app_assoc. simpl.
    repeat split; [done..|]. left. split; [done|by eexists]. }
  unfold logged_write. simpl.
  destruct (write_json output_file out w2) as [[msg|u] w3] eqn:Hwrite;
    intros [= <- <- <-]; (split; [done|]);
    exists asks, [WriteFile output_file out];
    rewrite <- !app_assoc; simpl;
    (repeat split; [done..|]); right; by exists text, w1, data, out, w2.
Qed.

End LoggedRun.

Lemma output_is_written_last_and_only_after_success_witness :
  let script := [verdict_text "good" "sound"] in
  let failed := inl (Raised (GraderError "the script is over")) in
  let log := snd (snd (sample_file_run script)) in
  sample_file_run script = (failed, ([], log))
  /\ process_json_file_io (read_sample sample_input_text) write_sample
       scripted_answer Json.loads ascii_lower str_of_sample
       "results.json" "out.json" tt script
     = (failed, [])
  /\ exists asks writes,
       log = [] ++ ReadFile "results.json" :: asks ++ writes
       /\ (length asks <= 10)%nat
       /\ Forall (is_ask tt) asks
       /\ ((writes = [] /\ exists e, failed = inl e)
           \/ (exists text w1 data out w2,
                 read_sample sample_input_text "results.json" script
                 = (inr text, w1)
                 /\ Json.loads text = Some data
                 /\ sample_process data tt w1 = (inr out, w2)
                 /\ writes = [WriteFile "out.json" out])).
Proof.
  intros script failed log.
  assert (Hrun : sample_file_run script = (failed, ([], log)))
    by (vm_compute; reflexivity).
  split; [exact Hrun|].
  exact (output_is_written_last_and_only_after_success
           (read_sample sample_input_text) write_sample scripted_answer
           Json.loads ascii_lower str_of_sample
           "results.json" "out.json" tt script [] failed [] log Hrun).
Defined.
